(** * The resume detail view of ai-ana (app/routes/resume.tsx)

    A shallow embedding of the payload normaliser [makeBlobFromPossible],
    of the asynchronous loader [loadResume] with the effect clean-up that
    revokes object URLs, and of the part of the JSX that decides what the
    view shows.

    JavaScript values are an inductive type, strings are sequences of
    UTF-16 code units, byte buffers are lists of bytes.  The browser
    functions the code calls ([atob], [String.prototype.split],
    [String.prototype.includes], the [Blob] constructor, the object-URL
    registry) are modelled after their standards; [JSON.stringify],
    [JSON.parse] and property reads are fields of the class [Platform]. *)

From Stdlib Require Import NArith ZArith List Lia Bool Ascii String.
From Stdlib.Strings Require Import Byte.
From Stdlib Require Import Floats.SpecFloat.
From stdpp Require Import base list.

Local Open Scope N_scope.
Local Open Scope list_scope.

(** ** Strings *)

Module JsString.

(** A JavaScript string: its UTF-16 code units. *)
Definition code_unit := N.
Definition jsstring := list code_unit.

(** A string literal of the source. *)
Definition js (s : string) : jsstring :=
  List.map N_of_ascii (list_ascii_of_string s).

Definition code_unit_eqb (a b : code_unit) : bool := N.eqb a b.

(** [s.startsWith(p)] *)
Fixpoint startsWith (s p : jsstring) : bool :=
  match p, s with
  | [], _ => true
  | _ :: _, [] => false
  | a :: p', b :: s' => code_unit_eqb a b && startsWith s' p'
  end.

(** [s.indexOf(p)]; [None] is JavaScript's -1. *)
Fixpoint indexOf (s p : jsstring) : option nat :=
  if startsWith s p then Some O
  else match s with
       | [] => None
       | _ :: s' => option_map S (indexOf s' p)
       end.

(** [s.includes(p)] *)
Fixpoint includes (s p : jsstring) : bool :=
  startsWith s p ||
  match s with
  | [] => false
  | _ :: s' => includes s' p
  end.

(** The scan of [s.split(sep)] for a separator that is not empty: [skip]
    counts the code units of a separator just matched that are still to be
    dropped, [cur] is the segment being collected. *)
Fixpoint split_scan (sep : jsstring) (skip : nat) (cur s : jsstring)
  : list jsstring :=
  match s with
  | [] => [cur]
  | c :: s' =>
      match skip with
      | S k => split_scan sep k cur s'
      | O =>
          if startsWith s sep
          then cur :: split_scan sep (Nat.pred (List.length sep)) [] s'
          else split_scan sep O (cur ++ [c]) s'
      end
  end.

(** [s.split(sep)], for a separator that is not empty. *)
Definition split (s sep : jsstring) : list jsstring := split_scan sep O [] s.

End JsString.
Import JsString.

(** ** Completions *)

(** What [err?.message || String(err)] reads of a thrown value. *)
Record thrown := {
  err_message : option jsstring;  (* [err?.message], when it is a string *)
  err_string : jsstring           (* [String(err)] *)
}.

(** The outcome of evaluating an expression or of awaiting a promise. *)
Inductive completion (A : Type) :=
| Normal (a : A)
| Throw (e : thrown).
Arguments Normal {A} a.
Arguments Throw {A} e.

(** ** Base64: [atob] (the forgiving-base64 decode of the Infra standard) *)

Module Base64.

Definition is_ascii_whitespace (c : code_unit) : bool :=
  N.eqb c 9 || N.eqb c 10 || N.eqb c 12 || N.eqb c 13 || N.eqb c 32.

Definition strip_whitespace (data : jsstring) : jsstring :=
  List.filter (fun c => negb (is_ascii_whitespace c)) data.

(** [data] without its last code unit, when that is [=]. *)
Definition drop_trailing_eq (data : jsstring) : jsstring :=
  match List.rev data with
  | c :: r => if N.eqb c 61 then List.rev r else data
  | [] => data
  end.

(** Step 2: when the length is a multiple of four, one or two trailing [=]
    are removed. *)
Definition remove_padding (data : jsstring) : jsstring :=
  if Nat.eqb (Nat.modulo (List.length data) 4) 0
  then drop_trailing_eq (drop_trailing_eq data)
  else data.

(** The position of a code unit in the base64 alphabet. *)
Definition b64_value (c : code_unit) : option N :=
  if N.leb 65 c && N.leb c 90 then Some (c - 65)
  else if N.leb 97 c && N.leb c 122 then Some (c - 71)
  else if N.leb 48 c && N.leb c 57 then Some (c + 4)
  else if N.eqb c 43 then Some 62
  else if N.eqb c 47 then Some 63
  else None.

Fixpoint b64_values (data : jsstring) : option (list N) :=
  match data with
  | [] => Some []
  | c :: data' =>
      match b64_value c, b64_values data' with
      | Some v, Some vs => Some (v :: vs)
      | _, _ => None
      end
  end.

(** Steps 5 to 9: six bits are appended to the buffer for each code unit;
    at 24 bits three bytes are output; a remainder of 12 or 18 bits gives
    one or two bytes. *)
Fixpoint b64_loop (vs : list N) (buffer : N) (bits : nat) (output : jsstring)
  : jsstring :=
  match vs with
  | [] =>
      match bits with
      | 12%nat => output ++ [buffer / 16]
      | 18%nat => output ++ [buffer / 4 / 256; (buffer / 4) mod 256]
      | _ => output
      end
  | v :: vs' =>
      let buffer := buffer * 64 + v in
      let bits := (bits + 6)%nat in
      if Nat.eqb bits 24
      then b64_loop vs' 0 0%nat
             (output ++ [buffer / 65536; (buffer / 256) mod 256; buffer mod 256])
      else b64_loop vs' buffer bits output
  end.

Definition InvalidCharacterError : thrown :=
  {| err_message := Some (js "The string to be decoded is not correctly encoded.");
     err_string := js "InvalidCharacterError: The string to be decoded is not correctly encoded." |}.

(** [atob(data)]: the binary string, one code unit below 256 per byte. *)
Definition atob (data : jsstring) : completion jsstring :=
  let data := remove_padding (strip_whitespace data) in
  if Nat.eqb (Nat.modulo (List.length data) 4) 1 then Throw InvalidCharacterError
  else match b64_values data with
       | None => Throw InvalidCharacterError
       | Some vs => Normal (b64_loop vs 0 0%nat [])
       end.

(** The standard encoding (RFC 4648, with padding), as [btoa] writes it:
    used to state which texts are base64 of which bytes. *)
Definition b64_char (v : N) : code_unit :=
  if N.ltb v 26 then v + 65
  else if N.ltb v 52 then v + 71
  else if N.ltb v 62 then v - 4
  else if N.eqb v 62 then 43
  else 47.

Fixpoint sextets (bs : list N) : list N :=
  match bs with
  | a :: b :: c :: bs' =>
      a / 4 :: (a mod 4) * 16 + b / 16 :: (b mod 16) * 4 + c / 64 :: c mod 64
        :: sextets bs'
  | [a; b] => [a / 4; (a mod 4) * 16 + b / 16; (b mod 16) * 4]
  | [a] => [a / 4; (a mod 4) * 16]
  | [] => []
  end.

Definition padding (n : nat) : jsstring :=
  match Nat.modulo n 3 with
  | 1%nat => [61; 61]
  | 2%nat => [61]
  | _ => []
  end.

Definition encode (bs : list byte) : jsstring :=
  List.map b64_char (sextets (List.map Byte.to_N bs)) ++ padding (List.length bs).

End Base64.
Import Base64.

(** ** Values *)

(** [Uint8Array] stores a number modulo 256. *)
Definition to_uint8 (c : N) : byte :=
  match Byte.of_N (c mod 256) with
  | Some b => b
  | None => "000"%byte
  end.

Module Utf8.

Definition is_high_surrogate (c : code_unit) : bool :=
  N.leb 55296 c && N.leb c 56319.
Definition is_low_surrogate (c : code_unit) : bool :=
  N.leb 56320 c && N.leb c 57343.

(** The UTF-8 bytes of one code point. *)
Definition encode_code_point (cp : N) : list byte :=
  if N.ltb cp 128 then [to_uint8 cp]
  else if N.ltb cp 2048 then
    [to_uint8 (192 + cp / 64); to_uint8 (128 + cp mod 64)]
  else if N.ltb cp 65536 then
    [to_uint8 (224 + cp / 4096); to_uint8 (128 + (cp / 64) mod 64);
     to_uint8 (128 + cp mod 64)]
  else
    [to_uint8 (240 + cp / 262144); to_uint8 (128 + (cp / 4096) mod 64);
     to_uint8 (128 + (cp / 64) mod 64); to_uint8 (128 + cp mod 64)].

(** A string part of a [Blob]: converted to a USVString (a surrogate that
    is not paired becomes U+FFFD) and encoded as UTF-8. *)
Fixpoint utf8_encode (s : jsstring) : list byte :=
  match s with
  | [] => []
  | c :: s' =>
      if is_high_surrogate c then
        match s' with
        | d :: s'' =>
            if is_low_surrogate d
            then encode_code_point (65536 + (c - 55296) * 1024 + (d - 56320))
                   ++ utf8_encode s''
            else encode_code_point 65533 ++ utf8_encode s'
        | [] => encode_code_point 65533
        end
      else if is_low_surrogate c then encode_code_point 65533 ++ utf8_encode s'
      else encode_code_point c ++ utf8_encode s'
  end.

End Utf8.

(** An element of the array given to the [Blob] constructor. *)
Inductive BlobPart :=
| BufferSource (bytes : list byte)   (* an ArrayBuffer, or the bytes of a view *)
| USVString (s : jsstring).

Definition part_bytes (p : BlobPart) : list byte :=
  match p with
  | BufferSource bytes => bytes
  | USVString s => Utf8.utf8_encode s
  end.

(** A [Blob]: its bytes, and the [type] option it was constructed with
    (the browser reports it in lower case; the types the view passes,
    [application/pdf], [image/png] and [image/jpeg], are so already). *)
Record Blob := {
  blob_bytes : list byte;
  blob_type : jsstring
}.

(** [new Blob(parts, { type })]: the bytes of the parts, one after the
    other, under the [type] option the caller gives. *)
Definition new_Blob (parts : list BlobPart) (type : jsstring) : Blob :=
  {| blob_bytes := List.concat (List.map part_bytes parts); blob_type := type |}.

(** The values a payload can be. *)
Inductive jsval :=
| JUndefined
| JNull
| JBoolean (b : bool)
| JNumber (x : spec_float)
| JBigInt (z : Z)
| JString (s : jsstring)
| JSymbol (id : N)
| JBlob (b : Blob)
| JArrayBuffer (bytes : list byte)
| JView (buffer : list byte) (byteOffset byteLength : nat)
    (* a typed array or a DataView on [buffer] *)
| JObject (ref : N).
    (* any other object (plain object, array, function, ...) *)

(** The bytes a view covers. *)
Definition view_bytes (buffer : list byte) (byteOffset byteLength : nat)
  : list byte :=
  firstn byteLength (skipn byteOffset buffer).

(** A view lies within its buffer. *)
Definition view_in_bounds (buffer : list byte) (byteOffset byteLength : nat)
  : Prop :=
  (byteOffset + byteLength <= List.length buffer)%nat.

(** [ToBoolean]: what [!data] and [if (data)] test. *)
Definition ToBoolean (v : jsval) : bool :=
  match v with
  | JUndefined | JNull => false
  | JBoolean b => b
  | JNumber (S754_zero _) | JNumber S754_nan => false
  | JNumber _ => true
  | JBigInt z => negb (Z.eqb z 0)
  | JString s => negb (Nat.eqb (List.length s) 0)
  | JSymbol _ | JBlob _ | JArrayBuffer _ | JView _ _ _ | JObject _ => true
  end.

(** [a || b] *)
Definition or_else (a b : jsval) : jsval := if ToBoolean a then a else b.

(** The browser functions whose result the model takes as given. *)
Class Platform := {
  (** [JSON.stringify(v)]: throws (a cycle, a BigInt, a throwing [toJSON]),
      or returns a string, or [undefined] ([None]). *)
  JSON_stringify : jsval -> completion (option jsstring);
  (** [JSON.parse(v)] *)
  JSON_parse : jsval -> completion jsval;
  (** [v.name]: throws on [null] and [undefined]. *)
  Get : jsval -> jsstring -> completion jsval;
  (** [URL.revokeObjectURL] is called in a [try]: what it throws, if it
      throws. *)
  revoke_throws : N -> option thrown
}.

(** ** The state the view's code reads and writes *)

(** An object URL ([blob:...]), named by the number the registry gave it. *)
Inductive objectURL := ObjectURL (n : N).

Definition objectURL_eqb (a b : objectURL) : bool :=
  match a, b with ObjectURL x, ObjectURL y => N.eqb x y end.

(** The registry behind [URL.createObjectURL] and [URL.revokeObjectURL]. *)
Record registry := {
  next_url : N;
  created : list (objectURL * Blob);   (* every URL handed out, oldest first *)
  revoke_calls : list objectURL        (* every call of [revokeObjectURL] *)
}.

(** The React state of [Resume]; [None] in a URL is the initial [''],
    [None] in [error] is [null]. *)
Record view_state := {
  imageUrl : option objectURL;
  resumeUrl : option objectURL;
  feedback : jsval;
  error : option jsstring
}.

Inductive console_entry :=
| console_warn (msg : jsstring) (e : option thrown)
| console_error (msg : jsstring) (e : thrown)
| console_log (log_resumeUrl : objectURL) (log_imageUrl : option objectURL)
    (log_feedback : jsval).

Inductive request :=
| kv_get (key : jsstring)
| fs_read (path : jsval).

(** Where [loadResume] waits. *)
Inductive suspended :=
| AwaitKvGet                                             (* line 69 *)
| AwaitReadResume (data : jsval)                         (* line 79 *)
| AwaitReadImage (data : jsval) (newResumeUrl : objectURL) (* line 98 *)
| Returned.

(** One run of the second effect: its [mounted] variable, the [imageUrl]
    its closure captured, and its call of [loadResume]. *)
Record effect_run := {
  mounted : bool;
  captured_imageUrl : option objectURL;
  load : suspended
}.

Inductive lifecycle :=
| NotMounted
| Active (run : nat)   (* the run whose clean-up React still holds *)
| Unmounted.

Record world := {
  console : list console_entry;
  createdUrls : list objectURL;   (* [createdUrls.current] *)
  urls : registry;
  view : view_state;
  requests : list request;
  runs : list effect_run;
  life : lifecycle
}.

Definition set_console (c : list console_entry) (w : world) : world :=
  {| console := c; createdUrls := createdUrls w; urls := urls w; view := view w;
     requests := requests w; runs := runs w; life := life w |}.
Definition set_createdUrls (c : list objectURL) (w : world) : world :=
  {| console := console w; createdUrls := c; urls := urls w; view := view w;
     requests := requests w; runs := runs w; life := life w |}.
Definition set_urls (r : registry) (w : world) : world :=
  {| console := console w; createdUrls := createdUrls w; urls := r; view := view w;
     requests := requests w; runs := runs w; life := life w |}.
Definition set_view (v : view_state) (w : world) : world :=
  {| console := console w; createdUrls := createdUrls w; urls := urls w; view := v;
     requests := requests w; runs := runs w; life := life w |}.
Definition set_requests (r : list request) (w : world) : world :=
  {| console := console w; createdUrls := createdUrls w; urls := urls w; view := view w;
     requests := r; runs := runs w; life := life w |}.
Definition set_runs (r : list effect_run) (w : world) : world :=
  {| console := console w; createdUrls := createdUrls w; urls := urls w; view := view w;
     requests := requests w; runs := r; life := life w |}.
Definition set_life (l : lifecycle) (w : world) : world :=
  {| console := console w; createdUrls := createdUrls w; urls := urls w; view := view w;
     requests := requests w; runs := runs w; life := l |}.

(** The view before its first effect. *)
Definition initial_world : world :=
  {| console := []; createdUrls := [];
     urls := {| next_url := 0; created := []; revoke_calls := [] |};
     view := {| imageUrl := None; resumeUrl := None; feedback := JNull; error := None |};
     requests := []; runs := []; life := NotMounted |}.

(** ** Statements: state passing with exceptions *)

Definition M (A : Type) : Type := world -> completion A * world.

Definition ret {A} (a : A) : M A := fun w => (Normal a, w).

Definition bind {A B} (m : M A) (k : A -> M B) : M B :=
  fun w =>
    match m w with
    | (Normal a, w') => k a w'
    | (Throw e, w') => (Throw e, w')
    end.

(** The value of an expression that may throw. *)
Definition eval {A} (c : completion A) : M A := fun w => (c, w).

(** [try { body } catch (e) { handler }] *)
Definition try_catch {A} (body : M A) (handler : thrown -> M A) : M A :=
  fun w =>
    match body w with
    | (Normal a, w') => (Normal a, w')
    | (Throw e, w') => handler e w'
    end.

Definition modify (f : world -> world) : M unit := fun w => (Normal tt, f w).

Definition when (b : bool) (m : M unit) : M unit := if b then m else ret tt.

Declare Scope js_scope.
Delimit Scope js_scope with js.
Notation "x <- m ;; k" := (bind m (fun x => k))
  (at level 100, m at next level, right associativity) : js_scope.
Notation "m ;; k" := (bind m (fun _ => k))
  (at level 100, right associativity) : js_scope.
Local Open Scope js_scope.

Definition console_push (e : console_entry) : M unit :=
  modify (fun w => set_console (console w ++ [e]) w).

Definition send (r : request) : M unit :=
  modify (fun w => set_requests (requests w ++ [r]) w).

Definition setImageUrl (u : objectURL) : M unit :=
  modify (fun w => set_view {| imageUrl := Some u; resumeUrl := resumeUrl (view w);
                               feedback := feedback (view w); error := error (view w) |} w).
Definition setResumeUrl (u : objectURL) : M unit :=
  modify (fun w => set_view {| imageUrl := imageUrl (view w); resumeUrl := Some u;
                               feedback := feedback (view w); error := error (view w) |} w).
Definition setFeedback (f : jsval) : M unit :=
  modify (fun w => set_view {| imageUrl := imageUrl (view w); resumeUrl := resumeUrl (view w);
                               feedback := f; error := error (view w) |} w).
Definition setError (e : option jsstring) : M unit :=
  modify (fun w => set_view {| imageUrl := imageUrl (view w); resumeUrl := resumeUrl (view w);
                               feedback := feedback (view w); error := e |} w).

(** [URL.createObjectURL(blob)]: a URL not handed out before. *)
Definition URL_createObjectURL (b : Blob) : M objectURL :=
  fun w =>
    let u := ObjectURL (next_url (urls w)) in
    (Normal u,
     set_urls {| next_url := N.succ (next_url (urls w));
                 created := created (urls w) ++ [(u, b)];
                 revoke_calls := revoke_calls (urls w) |} w).

(** [URL.revokeObjectURL(u)] *)
Definition URL_revokeObjectURL `{Platform} (u : objectURL) : M unit :=
  fun w =>
    let w' := set_urls {| next_url := next_url (urls w);
                          created := created (urls w);
                          revoke_calls := revoke_calls (urls w) ++ [u] |} w in
    match u with
    | ObjectURL n =>
        match revoke_throws n with
        | Some e => (Throw e, w')
        | None => (Normal tt, w')
        end
    end.

(** [createdUrls.current.push(u)] *)
Definition pushUrl (u : objectURL) : M unit :=
  modify (fun w => set_createdUrls (createdUrls w ++ [u]) w).

(** ** [makeBlobFromPossible] (lines 36 to 65) *)

Section Normalizer.
Context `{Platform}.

(** [binary.charCodeAt(i)]; out of range it is [NaN], stored as 0. *)
Definition charCodeAt (binary : jsstring) (i : nat) : N := nth i binary 0.

(** [new Uint8Array(len)] *)
Definition Uint8Array (len : nat) : list byte := repeat "000"%byte len.

(** [for (let i = 0; i < len; i++) bytes[i] = binary.charCodeAt(i)], from
    index [i] with [n] rounds to go. *)
Fixpoint copy_loop (binary : jsstring) (n i : nat) (bytes : list byte)
  : list byte :=
  match n with
  | O => bytes
  | S n' => copy_loop binary n' (S i) (<[i := to_uint8 (charCodeAt binary i)]> bytes)
  end.

(** An argument declared [DOMString]: [undefined] is converted to text. *)
Definition DOMString (v : option jsstring) : jsstring :=
  match v with
  | Some s => s
  | None => js "undefined"
  end.

(** [data.includes('base64,') ? data.split('base64,')[1] : data] *)
Definition base64_of (data : jsstring) : option jsstring :=
  if includes data (js "base64,")
  then nth_error (split data (js "base64,")) 1
  else Some data.

(** The body of the [try] of lines 47 to 53. *)
Definition decode_string (data fallbackMime : jsstring) : M (option Blob) :=
  let base64 := base64_of data in
  binary <- eval (atob (DOMString base64)) ;;
  let len := List.length binary in
  let bytes := Uint8Array len in
  let bytes := copy_loop binary len O bytes in
  ret (Some (new_Blob [BufferSource bytes] fallbackMime)).

(** The body of the [try] of line 61. *)
Definition stringify_blob (data : jsval) (fallbackMime : jsstring)
  : M (option Blob) :=
  text <- eval (JSON_stringify data) ;;
  ret (Some (new_Blob [USVString (DOMString text)] fallbackMime)).

(** The function.  It runs in an effect, hence in the browser, where
    [Blob] is defined: [typeof Blob !== 'undefined'] of line 40 is true.
    The tests of lines 38 to 45 are made in the order of the source: the
    falsy payloads first, then by the kind of the value. *)
Definition makeBlobFromPossible (data : jsval) (fallbackMime : jsstring)
  : M (option Blob) :=
  if negb (ToBoolean data) then ret None
  else
    match data with
    | JBlob b => ret (Some b)
    | JArrayBuffer bytes => ret (Some (new_Blob [BufferSource bytes] fallbackMime))
    | JView buffer _ _ => ret (Some (new_Blob [BufferSource buffer] fallbackMime))
    | JString s =>
        try_catch (decode_string s fallbackMime)
          (fun e =>
             console_push
               (console_warn (js "makeBlobFromPossible failed to decode string data")
                  (Some e)) ;;
             ret None)
    | _ =>
        try_catch (stringify_blob data fallbackMime) (fun _ => ret None)
    end.

(** ** [loadResume] (lines 67 to 122), one part per [await] *)

(** [err?.message || String(err)] *)
Definition error_text (err : thrown) : jsstring :=
  match err_message err with
  | Some m => if Nat.eqb (List.length m) 0 then err_string err else m
  | None => err_string err
  end.

(** The [catch] of lines 118 to 121. *)
Definition on_error (mounted : bool) (err : thrown) : M suspended :=
  console_push (console_error (js "Error loading resume:") err) ;;
  when mounted (setError (Some (error_text err))) ;;
  ret Returned.

(** The template literal of line 69. *)
Definition resume_key (id : option jsstring) : jsstring :=
  js "resume:" ++ DOMString id.

(** From the call of [loadResume] to the first [await]. *)
Definition load_start (id : option jsstring) : M suspended :=
  send (kv_get (resume_key id)) ;;
  ret AwaitKvGet.

(** Lines 69 to 79, once [kv.get] has settled. *)
Definition load_after_kv (mounted : bool) (settled : completion jsval)
  : M suspended :=
  try_catch
    (resumeKV <- eval settled ;;
     if negb (ToBoolean resumeKV) then
       if negb mounted then ret Returned
       else
         setError (Some (js "Resume not found in kv.")) ;;
         ret Returned
     else
       data <- eval (JSON_parse resumeKV) ;;
       resumePath <- eval (Get data (js "resumePath")) ;;
       send (fs_read resumePath) ;;
       ret (AwaitReadResume data))
    (on_error mounted).

(** Lines 79 to 98, once the first [fs.read] has settled. *)
Definition load_after_resume (mounted : bool) (data : jsval)
    (settled : completion jsval) : M suspended :=
  try_catch
    (resumeRaw <- eval settled ;;
     if negb (ToBoolean resumeRaw) then
       if negb mounted then ret Returned
       else
         setError (Some (js "Failed to read resume PDF from fs.")) ;;
         ret Returned
     else
       pdfBlob <- makeBlobFromPossible resumeRaw (js "application/pdf") ;;
       match pdfBlob with
       | None =>
           if negb mounted then ret Returned
           else
             setError (Some (js "Could not create PDF blob from resume data.")) ;;
             ret Returned
       | Some pdfBlob =>
           newResumeUrl <- URL_createObjectURL pdfBlob ;;
           pushUrl newResumeUrl ;;
           when mounted (setResumeUrl newResumeUrl) ;;
           imagePath <- eval (Get data (js "imagePath")) ;;
           send (fs_read imagePath) ;;
           ret (AwaitReadImage data newResumeUrl)
       end)
    (on_error mounted).

(** Line 100: [makeBlobFromPossible(imageRaw, 'image/png') ||
    makeBlobFromPossible(imageRaw, 'image/jpeg')]. *)
Definition image_blob (imageRaw : jsval) : M (option Blob) :=
  first <- makeBlobFromPossible imageRaw (js "image/png") ;;
  match first with
  | Some b => ret (Some b)
  | None => makeBlobFromPossible imageRaw (js "image/jpeg")
  end.

(** Lines 98 to 117, once the second [fs.read] has settled. *)
Definition load_after_image (mounted : bool) (captured : option objectURL)
    (data : jsval) (newResumeUrl : objectURL) (settled : completion jsval)
  : M suspended :=
  try_catch
    (imageRaw <- eval settled ;;
     (if ToBoolean imageRaw then
        imgBlob <- image_blob imageRaw ;;
        match imgBlob with
        | Some imgBlob =>
            newImageUrl <- URL_createObjectURL imgBlob ;;
            pushUrl newImageUrl ;;
            when mounted (setImageUrl newImageUrl)
        | None =>
            console_push
              (console_warn
                 (js "Could not convert image data to Blob; skipping image preview.")
                 None)
        end
      else
        console_push
          (console_warn (js "No image found at imagePath; skipping image preview.")
             None)) ;;
     (if mounted then
        fb <- eval (Get data (js "feedback")) ;;
        setFeedback (or_else fb JNull) ;;
        setError None
      else ret tt) ;;
     fb <- eval (Get data (js "feedback")) ;;
     console_push (console_log newResumeUrl captured fb) ;;
     ret Returned)
    (on_error mounted).

(** ** The effect and its clean-up (lines 29 to 134) *)

(** Lines 129 to 131. *)
Fixpoint revoke_each (us : list objectURL) : M unit :=
  match us with
  | [] => ret tt
  | u :: us' =>
      try_catch (URL_revokeObjectURL u) (fun _ => ret tt) ;;
      revoke_each us'
  end.

Definition set_mounted (b : bool) (r : effect_run) : effect_run :=
  {| mounted := b; captured_imageUrl := captured_imageUrl r; load := load r |}.
Definition set_load (s : suspended) (r : effect_run) : effect_run :=
  {| mounted := mounted r; captured_imageUrl := captured_imageUrl r; load := s |}.

(** The function the effect returns (lines 126 to 133), for run [i]. *)
Definition cleanup (i : nat) : M unit :=
  modify (fun w => set_runs (alter (set_mounted false) i (runs w)) w) ;;
  us <- (fun w => (Normal (createdUrls w), w)) ;;
  revoke_each us ;;
  modify (set_createdUrls []).

(** The body of the effect (lines 30 to 124): a new [mounted], and the call
    of [loadResume], which runs to its first [await]. *)
Definition run_effect (id : option jsstring) : M unit :=
  fun w =>
    let r := {| mounted := true; captured_imageUrl := imageUrl (view w);
                load := AwaitKvGet |} in
    let w1 := set_life (Active (List.length (runs w)))
                (set_runs (runs w ++ [r]) w) in
    match load_start id w1 with
    | (_, w2) => (Normal tt, w2)
    end.

(** The part of [loadResume] that runs when the promise run [r] awaits
    has settled. *)
Definition next_part (r : effect_run) (settled : completion jsval) : M suspended :=
  match load r with
  | AwaitKvGet => load_after_kv (mounted r) settled
  | AwaitReadResume data => load_after_resume (mounted r) data settled
  | AwaitReadImage data u =>
      load_after_image (mounted r) (captured_imageUrl r) data u settled
  | Returned => ret Returned
  end.

(** The load of run [i] goes on with what its promise settled to. *)
Definition resume_load (i : nat) (settled : completion jsval) : M unit :=
  fun w =>
    match runs w !! i with
    | None => (Normal tt, w)
    | Some r =>
        match next_part r settled w with
        | (Normal s, w') => (Normal tt, set_runs (alter (set_load s) i (runs w')) w')
        | (Throw _, w') => (Normal tt, set_runs (alter (set_load Returned) i (runs w')) w')
        end
    end.

(** What happens to the view. *)
Inductive event :=
| RunEffect (id : option jsstring)
    (* the effect runs: at mount, and when [id], [fs] or [kv] change *)
| Settle (i : nat) (settled : completion jsval)
    (* the promise the load of run [i] awaits settles *)
| Unmount.

Definition react (e : event) : M unit :=
  fun w =>
    match e with
    | RunEffect id =>
        match life w with
        | NotMounted => run_effect id w
        | Active i => (cleanup i ;; run_effect id) w
        | Unmounted => (Normal tt, w)
        end
    | Settle i settled => resume_load i settled w
    | Unmount =>
        match life w with
        | Active i => (cleanup i ;; modify (set_life Unmounted)) w
        | _ => (Normal tt, set_life Unmounted w)
        end
    end.

Definition step (w : world) (e : event) : world := snd (react e w).

Definition run_events (w : world) (es : list event) : world :=
  fold_left step es w.

End Normalizer.

(** ** What the view shows (lines 144 to 171) *)

(** [v.name] in the JSX: on [null] and [undefined] it throws a TypeError
    (the text of its message is the runtime's), on any other value it is
    what the platform reads. *)
Definition property_TypeError (name : jsstring) : thrown :=
  {| err_message := Some (js "Cannot read properties of undefined (reading '"
                            ++ name ++ js "')");
     err_string := js "TypeError: Cannot read properties of undefined (reading '"
                     ++ name ++ js "')" |}.

Definition property `{Platform} (v : jsval) (name : jsstring) : completion jsval :=
  match v with
  | JNull | JUndefined => Throw (property_TypeError name)
  | _ => Get v name
  end.

(** Evaluation in sequence of expressions that may throw. *)
Definition and_then {A B} (c : completion A) (k : A -> completion B) : completion B :=
  match c with
  | Normal a => k a
  | Throw e => Throw e
  end.

(** The [suggestions] of the ATS section: [feedback.ATS.tips || []]. *)
Inductive suggestions :=
| Tips (tips : jsval)
| EmptyArray.

(** The properties given to Summary, ATS and Details (lines 163 to 165). *)
Record sections := {
  Summary_feedback : jsval;
  ATS_score : jsval;
  ATS_suggestions : suggestions;
  Details_feedback : jsval
}.

Record rendered := {
  pdf_link : option objectURL;        (* the [href] of the link, if rendered *)
  preview_image : option objectURL;   (* the [src] of the image, if rendered *)
  error_line : option jsstring;       (* the text after [Error: ], if rendered *)
  feedback_sections : option sections (* Summary, ATS and Details, if rendered;
                                         otherwise the scanning image *)
}.

(** Lines 163 to 165: [feedback.ATS.score || 0] and
    [feedback.ATS.tips || []] are read while the elements are built, and
    throw when [feedback.ATS] is [undefined] or [null]. *)
Definition feedback_sections_of `{Platform} (feedback : jsval) : completion sections :=
  and_then (property feedback (js "ATS")) (fun ats =>
  and_then (property ats (js "score")) (fun score =>
  and_then (property feedback (js "ATS")) (fun ats' =>
  and_then (property ats' (js "tips")) (fun tips =>
  Normal {| Summary_feedback := feedback;
            ATS_score := or_else score (JNumber (S754_zero false));
            ATS_suggestions := if ToBoolean tips then Tips tips else EmptyArray;
            Details_feedback := feedback |})))).

(** The elements [Resume] returns, or what it throws while building them
    (nothing of the view is shown then).  Summary, ATS and Details are
    components of other files: they are given their properties here. *)
Definition render `{Platform} (v : view_state) : completion rendered :=
  let both :=
    match imageUrl v, resumeUrl v with
    | Some i, Some r => Some (r, i)
    | _, _ => None
    end in
  let error_line :=
    match error v with
    | Some e => if Nat.eqb (List.length e) 0 then None else Some e
    | None => None
    end in
  and_then
    (if ToBoolean (feedback v)
     then and_then (feedback_sections_of (feedback v)) (fun s => Normal (Some s))
     else Normal None)
    (fun sections =>
       Normal {| pdf_link := option_map fst both;
                 preview_image := option_map snd both;
                 error_line := error_line;
                 feedback_sections := sections |}).

(** ** A platform with one stored record, for the examples *)

Module Sample.

Fixpoint jsstring_eqb (a b : jsstring) : bool :=
  match a, b with
  | [], [] => true
  | x :: a', y :: b' => N.eqb x y && jsstring_eqb a' b'
  | _, _ => false
  end.

Definition TypeError (msg : string) : thrown :=
  {| err_message := Some (js msg); err_string := js "TypeError: " ++ js msg |}.

Definition SyntaxError (msg : string) : thrown :=
  {| err_message := Some (js msg); err_string := js "SyntaxError: " ++ js msg |}.

(** The text stored under [resume:1]. *)
Definition record_text : jsstring := js "{'resumePath':'r/1.pdf','imagePath':'r/1.png','feedback':{'ATS':{'score':80,'tips':['Add metrics']}}}".

(** Object 1 is the parsed record, object 2 its [feedback], object 5 the
    [ATS] of the feedback, with the score 80 and the array of tips, object
    6; object 3 is an object that refers to itself. *)
Definition parse (v : jsval) : completion jsval :=
  match v with
  | JString s =>
      if jsstring_eqb s record_text then Normal (JObject 1)
      else Throw (SyntaxError "Unexpected token")
  | _ => Throw (SyntaxError "Unexpected token")
  end.

Definition get (v : jsval) (name : jsstring) : completion jsval :=
  match v with
  | JNull | JUndefined => Throw (TypeError "Cannot read properties of null")
  | JObject 1 =>
      if jsstring_eqb name (js "resumePath") then Normal (JString (js "r/1.pdf"))
      else if jsstring_eqb name (js "imagePath") then Normal (JString (js "r/1.png"))
      else if jsstring_eqb name (js "feedback") then Normal (JObject 2)
      else Normal JUndefined
  | JObject 2 =>
      if jsstring_eqb name (js "ATS") then Normal (JObject 5) else Normal JUndefined
  | JObject 5 =>
      if jsstring_eqb name (js "score") then Normal (JNumber (S754_finite false 5 4))
      else if jsstring_eqb name (js "tips") then Normal (JObject 6)
      else Normal JUndefined
  | _ => Normal JUndefined
  end.

Definition stringify (v : jsval) : completion (option jsstring) :=
  match v with
  | JBigInt _ => Throw (TypeError "Do not know how to serialize a BigInt")
  | JObject 3 => Throw (TypeError "Converting circular structure to JSON")
  | JBoolean true => Normal (Some (js "true"))
  | JBoolean false => Normal (Some (js "false"))
  | JNull => Normal (Some (js "null"))
  | JObject 1 => Normal (Some record_text)
  | JObject _ => Normal (Some (js "{}"))
  | JNumber _ => Normal (Some (js "1"))
  | _ => Normal None
  end.

(** Revoking the second URL throws. *)
Definition revoke (n : N) : option thrown :=
  if N.eqb n 1 then Some (TypeError "revoke") else None.

#[local] Instance platform : Platform :=
  {| JSON_stringify := stringify; JSON_parse := parse; Get := get;
     revoke_throws := revoke |}.

(** The bytes [%PDF] and a short image payload. *)
Definition pdf_bytes : list byte := ["%"; "P"; "D"; "F"]%byte.
Definition png_bytes : list byte := ["P"; "N"; "G"]%byte.

End Sample.

(** ** Notions of the specification *)

(** The text the specification has decoded: what follows the first
    [base64,] marker, or the whole text when there is no marker. *)
Definition spec_base64_payload (t : jsstring) : jsstring :=
  match indexOf t (js "base64,") with
  | Some k => skipn (k + 7) t
  | None => t
  end.

(** [t] is valid base64, with or without a data-URL marker, of the bytes
    [b]. *)
Definition valid_base64_of (t : jsstring) (b : list byte) : Prop :=
  atob (spec_base64_payload t) = Normal (List.map Byte.to_N b).

(** The payloads that reach the last resort of line 61. *)
Definition last_resort (data : jsval) : bool :=
  ToBoolean data &&
  match data with
  | JBlob _ | JArrayBuffer _ | JView _ _ _ | JString _ => false
  | _ => true
  end.


(** The specification's [normalize]: the result of [makeBlobFromPossible],
    which never throws and does not read the state. *)
Definition normalize `{Platform} (payload : jsval) (fallbackMediaType : jsstring)
  : option Blob :=
  match fst (makeBlobFromPossible payload fallbackMediaType initial_world) with
  | Normal r => r
  | Throw _ => None
  end.

(** The warning of line 55. *)
Definition decode_warning (e : thrown) : console_entry :=
  console_warn (js "makeBlobFromPossible failed to decode string data") (Some e).

(** What lines 93 to 98 do once the PDF blob is there. *)
Definition with_resume_url `{Platform} (mounted : bool) (blob : Blob) (imagePath : jsval)
  : M objectURL :=
  (newResumeUrl <- URL_createObjectURL blob ;;
   pushUrl newResumeUrl ;;
   when mounted (setResumeUrl newResumeUrl) ;;
   send (fs_read imagePath) ;;
   ret newResumeUrl)%js.


(** The invariant of the object URLs: those handed out are, in the order
    of their creation, those [revokeObjectURL] was called on followed by
    those on [createdUrls.current]; and they are numbered from 0. *)
Definition handles_inv (w : world) : Prop :=
  List.map fst (created (urls w)) = revoke_calls (urls w) ++ createdUrls w
  /\ List.map fst (created (urls w))
     = List.map (fun k => ObjectURL (N.of_nat k))
         (seq 0 (List.length (created (urls w))))
  /\ next_url (urls w) = N.of_nat (List.length (created (urls w))).

(** In the loop of [atob] the buffer holds [bits] bits, a multiple of six
    below 24. *)
Definition buffer_ok (buffer : N) (bits : nat) : Prop :=
  (bits = 0%nat /\ buffer = 0) \/ (bits = 6%nat /\ buffer < 64)
  \/ (bits = 12%nat /\ buffer < 4096) \/ (bits = 18%nat /\ buffer < 262144).


(** The JavaScript value of a result of the normaliser: [null] or the blob. *)
Definition of_result (r : option Blob) : jsval :=
  match r with
  | Some b => JBlob b
  | None => JNull
  end.

(** What holds of the runs and of the state of the view however the view
    got there: only the run React holds the clean-up of can be mounted; the
    URLs in the state were handed out by the registry; a mounted load that
    waits for the image has stored the URL of its PDF; an image or a
    feedback in the state come with a URL of a PDF. *)
Definition view_inv (w : world) : Prop :=
  (forall j r, runs w !! j = Some r -> mounted r = true -> life w = Active j)
  /\ (forall u, resumeUrl (view w) = Some u -> In u (List.map fst (created (urls w))))
  /\ (forall u, imageUrl (view w) = Some u -> In u (List.map fst (created (urls w))))
  /\ (forall j r data u, runs w !! j = Some r -> load r = AwaitReadImage data u ->
        mounted r = true -> resumeUrl (view w) <> None)
  /\ (imageUrl (view w) <> None \/ ToBoolean (feedback (view w)) = true ->
      resumeUrl (view w) <> None).

(** The state of the view with another error. *)
Definition with_error (e : option jsstring) (v : view_state) : view_state :=
  {| imageUrl := imageUrl v; resumeUrl := resumeUrl v; feedback := feedback v;
     error := e |}.

(** The outcome of a load that ends on an error: in a mounted run the error
    is in the state of the view; nothing else of the view changes, no URL
    is created, no request is sent, and the load of run [i] is over. *)
Definition ends_on_error (i : nat) (r : effect_run) (msg : jsstring) (w w' : world)
  : Prop :=
  view w' = (if mounted r then with_error (Some msg) (view w) else view w)
  /\ urls w' = urls w
  /\ createdUrls w' = createdUrls w
  /\ requests w' = requests w
  /\ runs w' !! i = Some (set_load Returned r).

(** * Properties *)

(** ** Strings *)

Section StringFacts.

Lemma startsWith_length s p : startsWith s p = true -> (List.length p <= List.length s)%nat.
Proof.
  revert s; induction p as [|a p IH]; intros [|b s]; simpl; try lia; try discriminate.
  intros Hs. apply andb_true_iff in Hs as [_ Hs]. apply IH in Hs. lia.
Qed.

Lemma startsWith_In s p c : startsWith s p = true -> In c p -> In c s.
Proof.
  revert s; induction p as [|a p IH]; intros [|b s]; simpl; try tauto; try discriminate.
  intros Hs. apply andb_true_iff in Hs as [Hab Hs].
  apply N.eqb_eq in Hab. subst b.
  intros [->|Hin]; [now left | right; now apply IH].
Qed.

Lemma includes_indexOf s p :
  includes s p = match indexOf s p with Some _ => true | None => false end.
Proof.
  induction s as [|c s IH]; cbn [includes indexOf].
  - destruct (startsWith [] p); reflexivity.
  - destruct (startsWith (c :: s) p); cbn [orb]; [reflexivity|].
    rewrite IH. destruct (indexOf s p); reflexivity.
Qed.

Lemma indexOf_None_In s p c : In c p -> ~ In c s -> indexOf s p = None.
Proof.
  intros Hp. induction s as [|d s IH]; intros Hs; cbn [indexOf].
  - destruct (startsWith [] p) eqn:E; [|reflexivity].
    exfalso. apply Hs. eapply startsWith_In; eauto.
  - destruct (startsWith (d :: s) p) eqn:E.
    + exfalso. apply Hs. eapply startsWith_In; eauto.
    + rewrite IH; [reflexivity|]. intros Hin. apply Hs. now right.
Qed.

Lemma split_scan_skip sep k cur s :
  (k <= List.length s)%nat ->
  split_scan sep k cur s = split_scan sep O cur (skipn k s).
Proof.
  revert k; induction s as [|c s IH]; intros [|k] Hk; simpl in *; try reflexivity; try lia.
  apply IH. lia.
Qed.

Lemma split_scan_None sep cur s :
  indexOf s sep = None -> split_scan sep O cur s = [cur ++ s].
Proof.
  revert cur; induction s as [|c s IH]; intros cur; cbn [indexOf split_scan].
  - now rewrite app_nil_r.
  - destruct (startsWith (c :: s) sep); [discriminate|].
    destruct (indexOf s sep) eqn:E; [discriminate|]. intros _.
    rewrite IH by reflexivity. now rewrite <- app_assoc.
Qed.

Lemma split_scan_Some sep cur s k :
  sep <> [] -> indexOf s sep = Some k ->
  split_scan sep O cur s
  = (cur ++ firstn k s) :: split_scan sep O [] (skipn (k + List.length sep) s).
Proof.
  intros Hsep. revert cur k; induction s as [|c s IH]; intros cur k;
    cbn [indexOf split_scan].
  - destruct (startsWith [] sep) eqn:E; [|discriminate].
    destruct sep; [congruence|discriminate].
  - destruct (startsWith (c :: s) sep) eqn:E.
    + intros [= <-]. simpl. rewrite app_nil_r. f_equal.
      apply startsWith_length in E. simpl in E.
      destruct sep as [|a sep]; [congruence|]. simpl in *.
      apply split_scan_skip. lia.
    + destruct (indexOf s sep) as [j|] eqn:Ej; [|discriminate].
      intros [= <-]. simpl. rewrite (IH _ j eq_refl).
      now rewrite <- app_assoc.
Qed.

(** With the marker first at [k] and none after it, element 1 of the split
    is all of the text after the marker. *)
Lemma split_element1 s sep k :
  sep <> [] -> indexOf s sep = Some k ->
  indexOf (skipn (k + List.length sep) s) sep = None ->
  nth_error (split s sep) 1 = Some (skipn (k + List.length sep) s).
Proof.
  intros Hsep Hk Hrest. unfold split.
  rewrite (split_scan_Some _ _ _ _ Hsep Hk).
  now rewrite (split_scan_None _ _ _ Hrest).
Qed.

End StringFacts.

(** ** Base64 *)

Section Base64Facts.

Lemma list_ind3 {A} (P : list A -> Prop) :
  P [] -> (forall a, P [a]) -> (forall a b, P [a; b]) ->
  (forall a b c l, P l -> P (a :: b :: c :: l)) ->
  forall l, P l.
Proof.
  intros H0 H1 H2 H3 l.
  enough (P l /\ (forall a, P (a :: l)) /\ (forall a b, P (a :: b :: l))) by tauto.
  induction l as [|x l (IH0 & IH1 & IH2)]; repeat split; auto.
Qed.

Ltac cases_N :=
  repeat match goal with
    | |- context [N.ltb ?a ?b] => destruct (N.ltb_spec a b)
    | |- context [N.leb ?a ?b] => destruct (N.leb_spec a b)
    | |- context [N.eqb ?a ?b] => destruct (N.eqb_spec a b)
    end; cbn [andb orb negb].

Ltac cases_b64_char v :=
  unfold b64_char;
  destruct (N.ltb_spec v 26); [|destruct (N.ltb_spec v 52);
    [|destruct (N.ltb_spec v 62); [|destruct (N.eqb_spec v 62)]]].

Lemma b64_value_char v : v < 64 -> b64_value (b64_char v) = Some v.
Proof.
  intros Hv. cases_b64_char v; unfold b64_value; cases_N; try lia; f_equal; lia.
Qed.

Lemma b64_char_not_eq v : N.eqb (b64_char v) 61 = false.
Proof. cases_b64_char v; cases_N; try reflexivity; lia. Qed.

Lemma b64_char_not_whitespace v : is_ascii_whitespace (b64_char v) = false.
Proof.
  unfold is_ascii_whitespace. cases_b64_char v; cases_N; try reflexivity; lia.
Qed.

Lemma b64_values_chars vs :
  Forall (fun v => v < 64) vs -> b64_values (List.map b64_char vs) = Some vs.
Proof.
  induction 1 as [|v vs Hv _ IH]; cbn [List.map b64_values]; [reflexivity|].
  now rewrite (b64_value_char v Hv), IH.
Qed.

Lemma strip_whitespace_id data :
  Forall (fun c => is_ascii_whitespace c = false) data ->
  strip_whitespace data = data.
Proof.
  unfold strip_whitespace.
  induction 1 as [|c data Hc _ IH]; cbn [List.filter]; [reflexivity|].
  rewrite Hc. cbn [negb]. now rewrite IH.
Qed.

Lemma drop_trailing_eq_snoc data : drop_trailing_eq (data ++ [61]) = data.
Proof.
  unfold drop_trailing_eq. rewrite rev_app_distr. cbn [List.rev List.app].
  cbn [N.eqb Pos.eqb]. apply rev_involutive.
Qed.

Lemma drop_trailing_eq_chars vs :
  drop_trailing_eq (List.map b64_char vs) = List.map b64_char vs.
Proof.
  unfold drop_trailing_eq. rewrite <- map_rev.
  destruct (List.rev vs) as [|v r]; cbn [List.map]; [reflexivity|].
  now rewrite b64_char_not_eq.
Qed.

Lemma sextets_bound l :
  Forall (fun b => b < 256) l -> Forall (fun v => v < 64) (sextets l).
Proof.
  induction l as [| a | a b | a b c l IH] using list_ind3; intros Hl;
    cbn [sextets]; repeat match goal with
      | H : Forall _ (_ :: _) |- _ => apply List.Forall_cons_iff in H as [? H]
      end;
    repeat (apply List.Forall_cons; [zify; Z.to_euclidean_division_equations; lia|]);
    auto.
Qed.

Lemma b64_loop_sextets l :
  Forall (fun b => b < 256) l ->
  forall output, b64_loop (sextets l) 0 0%nat output = output ++ l.
Proof.
  induction l as [| a | a b | a b c l IH] using list_ind3; intros Hl output;
    cbn [sextets b64_loop Nat.add Nat.eqb];
    repeat match goal with
      | H : Forall _ (_ :: _) |- _ => apply List.Forall_cons_iff in H as [? H]
      end.
  - now rewrite app_nil_r.
  - do 2 f_equal. zify; Z.to_euclidean_division_equations; lia.
  - f_equal. f_equal; [|f_equal]; zify; Z.to_euclidean_division_equations; lia.
  - rewrite IH by assumption. rewrite <- app_assoc. f_equal.
    cbn [List.app]. f_equal; [|f_equal; [|f_equal]];
      zify; Z.to_euclidean_division_equations; lia.
Qed.

(** The number of sextets of [3 q + r] bytes. *)
Lemma sextets_length l :
  exists q r r',
    List.length l = (r + q * 3)%nat /\ List.length (sextets l) = (r' + q * 4)%nat
    /\ ((r = 0 /\ r' = 0) \/ (r = 1 /\ r' = 2) \/ (r = 2 /\ r' = 3))%nat.
Proof.
  induction l as [| a | a b | a b c l (q & r & r' & Hl & Hs & Hr)] using list_ind3.
  - exists 0%nat, 0%nat, 0%nat. cbn. lia.
  - exists 0%nat, 1%nat, 2%nat. cbn. lia.
  - exists 0%nat, 2%nat, 3%nat. cbn. lia.
  - exists (S q), r, r'. cbn [sextets List.length]. lia.
Qed.

Lemma atob_encode bs : atob (encode bs) = Normal (List.map Byte.to_N bs).
Proof.
  set (l := List.map Byte.to_N bs).
  assert (Hl : Forall (fun b => b < 256) l).
  { apply List.Forall_forall. intros b Hb. apply in_map_iff in Hb as (x & <- & _).
    pose proof (Byte.to_N_bounded x). cbv beta. lia. }
  assert (Hws : strip_whitespace (encode bs) = encode bs).
  { apply strip_whitespace_id. unfold encode. apply Forall_app. split.
    - apply List.Forall_forall. intros c Hc. apply in_map_iff in Hc as (v & <- & _).
      apply b64_char_not_whitespace.
    - unfold padding. destruct (List.length bs mod 3)%nat as [|[|[|?]]];
        repeat constructor. }
  assert (Hpad : remove_padding (encode bs) = List.map b64_char (sextets l)
                 /\ (List.length (sextets l) mod 4 <> 1)%nat).
  { destruct (sextets_length l) as (q & r & r' & Hlen & Hs & Hr).
    assert (Hbs : List.length bs = (r + q * 3)%nat)
      by (rewrite <- Hlen; unfold l; now rewrite length_map).
    assert (Hm3 : (List.length bs mod 3 = r)%nat).
    { rewrite Hbs, Nat.Div0.mod_add.
      destruct Hr as [[-> _]|[[-> _]|[-> _]]]; reflexivity. }
    assert (Hm4 : (List.length (sextets l) mod 4 = r')%nat).
    { rewrite Hs, Nat.Div0.mod_add.
      destruct Hr as [[_ ->]|[[_ ->]|[_ ->]]]; reflexivity. }
    assert (Htot : ((List.length (sextets l) + List.length (padding (List.length bs)))
                      mod 4 = 0)%nat).
    { unfold padding. rewrite Hm3, Hs.
      destruct Hr as [[-> ->]|[[-> ->]|[-> ->]]]; cbn [List.length].
      - rewrite Nat.add_0_r. apply Nat.Div0.mod_add.
      - replace (2 + q * 4 + 2)%nat with (0 + S q * 4)%nat by lia.
        apply Nat.Div0.mod_add.
      - replace (3 + q * 4 + 1)%nat with (0 + S q * 4)%nat by lia.
        apply Nat.Div0.mod_add. }
    split; [|rewrite Hm4; lia].
    unfold remove_padding, encode. fold l.
    rewrite length_app, length_map, Htot. cbn [Nat.eqb].
    unfold padding. rewrite Hm3.
    destruct Hr as [[-> _]|[[-> _]|[-> _]]].
    - rewrite app_nil_r. now rewrite !drop_trailing_eq_chars.
    - change [61; 61] with ([61] ++ [61]). rewrite app_assoc.
      now rewrite !drop_trailing_eq_snoc.
    - now rewrite drop_trailing_eq_snoc, drop_trailing_eq_chars. }
  destruct Hpad as [Hpad Hmod].
  unfold atob. rewrite Hws, Hpad, length_map.
  destruct (Nat.eqb_spec (List.length (sextets l) mod 4) 1); [contradiction|].
  rewrite (b64_values_chars _ (sextets_bound _ Hl)).
  now rewrite (b64_loop_sextets _ Hl).
Qed.

End Base64Facts.

(** A text [atob] accepts has no comma, hence no marker. *)
Section AcceptedTexts.

Lemma b64_values_Some data vs :
  b64_values data = Some vs -> forall c, In c data -> b64_value c <> None.
Proof.
  revert vs; induction data as [|d data IH]; intros vs; cbn [b64_values].
  - intros _ c [].
  - destruct (b64_value d) eqn:Ed; [|discriminate].
    destruct (b64_values data) eqn:Eds; [|discriminate].
    intros _ c [<-|Hc]; [congruence | eapply IH; eauto].
Qed.

Lemma drop_trailing_eq_In c data :
  In c data -> In c (drop_trailing_eq data) \/ c = 61.
Proof.
  unfold drop_trailing_eq. destruct (List.rev data) as [|x r] eqn:E; [now left|].
  destruct (N.eqb_spec x 61) as [->|_]; [|now left].
  intros Hc. apply in_rev in Hc. rewrite E in Hc.
  destruct Hc as [<-|Hc]; [now right | left; now apply in_rev in Hc].
Qed.

Lemma remove_padding_In c data :
  In c data -> In c (remove_padding data) \/ c = 61.
Proof.
  unfold remove_padding. destruct (Nat.eqb _ 0); [|now left].
  intros Hc. apply drop_trailing_eq_In in Hc as [Hc|Hc]; [|now right].
  now apply drop_trailing_eq_In in Hc.
Qed.

Lemma atob_Normal_In data binary c :
  atob data = Normal binary -> In c data ->
  is_ascii_whitespace c = true \/ c = 61 \/ b64_value c <> None.
Proof.
  unfold atob. destruct (Nat.eqb _ 1); [discriminate|].
  destruct (b64_values _) as [vs|] eqn:E; [|discriminate].
  intros _ Hc. destruct (is_ascii_whitespace c) eqn:Ews; [now left|right].
  assert (Hs : In c (strip_whitespace data)).
  { apply filter_In. split; [assumption|]. now rewrite Ews. }
  apply remove_padding_In in Hs as [Hs|Hs]; [right|now left].
  eapply b64_values_Some; eauto.
Qed.

Lemma atob_Normal_no_marker data binary :
  atob data = Normal binary -> indexOf data (js "base64,") = None.
Proof.
  intros Ha. apply (indexOf_None_In _ _ 44).
  - cbn. tauto.
  - intros Hc. destruct (atob_Normal_In _ _ _ Ha Hc) as [Hw|[He|Hv]];
      [discriminate Hw | discriminate He | now apply Hv].
Qed.

End AcceptedTexts.

(** ** The copy into the [Uint8Array] *)

Section CopyLoop.

Lemma to_uint8_to_N b : to_uint8 (Byte.to_N b) = b.
Proof.
  unfold to_uint8. rewrite N.mod_small.
  - now rewrite Byte.of_to_N.
  - pose proof (Byte.to_N_bounded b). lia.
Qed.

Lemma copy_loop_spec binary n i bytes :
  (i + n = List.length binary)%nat -> List.length bytes = List.length binary ->
  copy_loop binary n i bytes = take i bytes ++ List.map to_uint8 (drop i binary).
Proof.
  revert i bytes; induction n as [|n IH]; intros i bytes Hn Hlen; cbn [copy_loop].
  - rewrite drop_ge by lia. rewrite take_ge by lia. now rewrite app_nil_r.
  - rewrite IH by (rewrite ?length_insert; lia).
    assert (Hi : (i < List.length binary)%nat) by lia.
    destruct (lookup_lt_is_Some_2 binary i Hi) as [c Hc].
    rewrite (take_S_r _ i (to_uint8 (charCodeAt binary i)))
      by (apply list_lookup_insert_eq; lia).
    rewrite take_insert_ge by lia.
    rewrite (drop_S binary c i Hc). cbn [List.map].
    rewrite <- app_assoc. cbn [List.app]. do 3 f_equal.
    unfold charCodeAt. now rewrite (nth_lookup_Some _ _ _ _ Hc).
Qed.

Lemma copy_loop_all binary :
  copy_loop binary (List.length binary) O (Uint8Array (List.length binary))
  = List.map to_uint8 binary.
Proof.
  rewrite copy_loop_spec; [reflexivity | lia |].
  unfold Uint8Array. apply repeat_length.
Qed.

End CopyLoop.

(** ** What [atob] returns is a string of bytes *)

Section BinaryStrings.

Lemma b64_value_bound c v : b64_value c = Some v -> v < 64.
Proof.
  unfold b64_value.
  repeat match goal with
    | |- context [N.leb ?a ?b] => destruct (N.leb_spec a b)
    | |- context [N.eqb ?a ?b] => destruct (N.eqb_spec a b)
    end; cbn [andb]; intros [= <-]; lia.
Qed.

Lemma b64_values_bound data vs :
  b64_values data = Some vs -> Forall (fun v => v < 64) vs.
Proof.
  revert vs; induction data as [|c data IH]; intros vs; cbn [b64_values].
  - intros [= <-]. constructor.
  - destruct (b64_value c) as [v|] eqn:Ev; [|discriminate].
    destruct (b64_values data) as [vs'|]; [|discriminate].
    intros [= <-]. constructor; [eapply b64_value_bound; eauto | now apply IH].
Qed.

Lemma b64_loop_bytes vs :
  Forall (fun v => v < 64) vs ->
  forall buffer bits output,
    buffer_ok buffer bits ->
    Forall (fun c => c < 256) output ->
    Forall (fun c => c < 256) (b64_loop vs buffer bits output).
Proof.
  induction 1 as [|v vs Hv _ IH]; intros buffer bits output Hb Ho.
  - destruct Hb as [[-> ->]|[[-> Hb]|[[-> Hb]|[-> Hb]]]]; cbn [b64_loop];
      try assumption; apply Forall_app; (split; [assumption|]);
      repeat (apply List.Forall_cons; [zify; Z.to_euclidean_division_equations; lia|]);
      constructor.
  - destruct Hb as [[-> ->]|[[-> Hb]|[[-> Hb]|[-> Hb]]]];
      cbn [b64_loop Nat.add Nat.eqb]; apply IH; try assumption;
      unfold buffer_ok; try (right; left; split; [reflexivity|lia]);
      try (right; right; left; split; [reflexivity|lia]);
      try (right; right; right; split; [reflexivity|lia]);
      try (left; split; reflexivity).
    apply Forall_app. split; [assumption|].
    repeat (apply List.Forall_cons; [zify; Z.to_euclidean_division_equations; lia|]);
      constructor.
Qed.

Lemma atob_bytes data binary :
  atob data = Normal binary -> Forall (fun c => c < 256) binary.
Proof.
  unfold atob. destruct (Nat.eqb _ 1); [discriminate|].
  destruct (b64_values _) as [vs|] eqn:E; [|discriminate].
  intros [= <-]. apply b64_loop_bytes.
  - eapply b64_values_bound; eauto.
  - left. auto.
  - constructor.
Qed.

Lemma to_N_to_uint8 c : c < 256 -> Byte.to_N (to_uint8 c) = c.
Proof.
  intros Hc. unfold to_uint8. rewrite N.mod_small by assumption.
  destruct (Byte.of_N c) as [b|] eqn:E.
  - now apply Byte.to_of_N.
  - apply Byte.of_N_None_iff in E. lia.
Qed.

(** Every text [atob] accepts decodes to some bytes. *)
Lemma atob_Normal_bytes data binary :
  atob data = Normal binary ->
  binary = List.map Byte.to_N (List.map to_uint8 binary).
Proof.
  intros Ha. apply atob_bytes in Ha.
  induction Ha as [|c binary Hc _ IH]; cbn [List.map]; [reflexivity|].
  now rewrite to_N_to_uint8, <- IH.
Qed.

End BinaryStrings.

(** ** [makeBlobFromPossible] *)

Section NormalizerFacts.
Context `{Platform}.

Lemma set_console_id w : set_console (console w ++ []) w = w.
Proof. destruct w. unfold set_console. cbn. now rewrite app_nil_r. Qed.

(** On a text that is valid base64 the code decodes what the specification
    says. *)
Lemma base64_of_valid t b :
  valid_base64_of t b -> base64_of t = Some (spec_base64_payload t).
Proof.
  unfold valid_base64_of, base64_of, spec_base64_payload.
  rewrite includes_indexOf.
  destruct (indexOf t (js "base64,")) as [k|] eqn:Ek; [|reflexivity].
  intros Ha. apply atob_Normal_no_marker in Ha.
  change 7%nat with (List.length (js "base64,")) in *.
  apply split_element1; [discriminate | assumption | assumption].
Qed.

Lemma decode_string_Normal s binary m w :
  atob (DOMString (base64_of s)) = Normal binary ->
  decode_string s m w
  = (Normal (Some {| blob_bytes := List.map to_uint8 binary; blob_type := m |}), w).
Proof.
  intros Ha. unfold decode_string, bind, eval, ret. rewrite Ha.
  rewrite copy_loop_all. unfold new_Blob. cbn [List.map List.concat part_bytes].
  now rewrite app_nil_r.
Qed.

Lemma decode_string_Throw s e m w :
  atob (DOMString (base64_of s)) = Throw e ->
  decode_string s m w = (Throw e, w).
Proof. intros Ha. unfold decode_string, bind, eval. now rewrite Ha. Qed.

Lemma falsy_null data m w :
  ToBoolean data = false -> makeBlobFromPossible data m w = (Normal None, w).
Proof. intros Hd. unfold makeBlobFromPossible. now rewrite Hd. Qed.

Lemma string_payload s m w :
  s <> [] ->
  makeBlobFromPossible (JString s) m w
  = try_catch (decode_string s m)
      (fun e =>
         console_push
           (console_warn (js "makeBlobFromPossible failed to decode string data")
              (Some e)) ;;
         ret None)%js w.
Proof. destruct s; [congruence|reflexivity]. Qed.

Lemma last_resort_payload data m w :
  last_resort data = true ->
  makeBlobFromPossible data m w
  = try_catch (stringify_blob data m) (fun _ => ret None) w.
Proof.
  unfold last_resort, makeBlobFromPossible. intros Hd.
  apply andb_true_iff in Hd as [-> Hd]. cbn [negb].
  destruct data; try discriminate; reflexivity.
Qed.

Lemma last_resort_null data m w :
  last_resort data = true ->
  fst (makeBlobFromPossible data m w) = Normal None
  <-> exists e, JSON_stringify data = Throw e.
Proof.
  intros Hl. rewrite last_resort_payload by assumption.
  unfold try_catch, stringify_blob, bind, eval, ret.
  destruct (JSON_stringify data) as [text|e]; cbn [fst].
  - split; [discriminate | intros [e [=]]].
  - split; eauto.
Qed.

(** When the result is [null]: the three ways, none of which reads the
    media type or the state. *)
Lemma result_is_null data m w :
  fst (makeBlobFromPossible data m w) = Normal None
  <-> ToBoolean data = false
      \/ (exists s e, data = JString s /\ atob (DOMString (base64_of s)) = Throw e)
      \/ (last_resort data = true /\ exists e, JSON_stringify data = Throw e).
Proof.
  destruct (ToBoolean data) eqn:Hd.
  2:{ rewrite falsy_null by assumption. cbn. tauto. }
  destruct (last_resort data) eqn:Hl.
  { rewrite (last_resort_null _ _ _ Hl). split; [tauto|].
    intros [?|[(s & e & -> & _)|[_ ?]]]; [discriminate| |assumption].
    unfold last_resort in Hl. now rewrite andb_false_r in Hl. }
  unfold last_resort in Hl. rewrite Hd in Hl.
  destruct data; try discriminate Hl; try discriminate Hd.
  - (* a text *)
    rewrite string_payload by (intros ->; discriminate Hd).
    unfold try_catch.
    destruct (atob (DOMString (base64_of s))) as [binary|e] eqn:Ea.
    + rewrite (decode_string_Normal _ _ _ _ Ea). cbn [fst].
      split; [discriminate|].
      intros [?|[(s' & e' & [= <-] & Ha)|[? _]]]; try discriminate. congruence.
    + rewrite (decode_string_Throw _ _ _ _ Ea).
      unfold bind, console_push, modify, ret. cbn [fst].
      split; [|reflexivity]. intros _. right. left. eauto.
  - cbn. split; [discriminate|].
    intros [?|[(s' & e' & ? & _)|[? _]]]; discriminate.
  - cbn. split; [discriminate|].
    intros [?|[(s' & e' & ? & _)|[? _]]]; discriminate.
  - cbn. split; [discriminate|].
    intros [?|[(s' & e' & ? & _)|[? _]]]; discriminate.
Qed.

End NormalizerFacts.

(** ** The contract of the normaliser *)

Section NormalizerContract.
Context `{Platform}.

(** The result and the warning, if any, are the same in every state. *)
Lemma makeBlobFromPossible_cases data m :
  exists r log,
    (forall w, makeBlobFromPossible data m w
               = (Normal r, set_console (console w ++ log) w))
    /\ (log = [] \/ (r = None /\ exists e, log = [decode_warning e])).
Proof.
  destruct (ToBoolean data) eqn:Hd.
  2:{ exists None, []. split; [|auto]. intros w.
      now rewrite falsy_null, set_console_id. }
  destruct (last_resort data) eqn:Hl.
  { destruct (JSON_stringify data) as [text|e] eqn:Es; eexists _, [];
      (split; [|auto]); intros w; rewrite last_resort_payload by assumption;
      unfold try_catch, stringify_blob, bind, eval, ret; rewrite Es;
      now rewrite set_console_id. }
  unfold last_resort in Hl. rewrite Hd in Hl.
  destruct data; try discriminate Hl; try discriminate Hd.
  - assert (Hs : s <> []) by (intros ->; discriminate Hd).
    destruct (atob (DOMString (base64_of s))) as [binary|e] eqn:Ea.
    + eexists _, []. split; [|auto]. intros w.
      rewrite string_payload by assumption. unfold try_catch.
      rewrite (decode_string_Normal _ _ _ _ Ea). now rewrite set_console_id.
    + exists None, [decode_warning e]. split; [|eauto]. intros w.
      rewrite string_payload by assumption. unfold try_catch.
      now rewrite (decode_string_Throw _ _ _ _ Ea).
  - eexists _, []. split; [|auto]. intros w. now rewrite set_console_id.
  - eexists _, []. split; [|auto]. intros w. now rewrite set_console_id.
  - eexists _, []. split; [|auto]. intros w. now rewrite set_console_id.
Qed.

(** The function returns normally in every case, and the state it leaves
    is the state it found, with at most one warning more on the console. *)
Lemma makeBlobFromPossible_returns data m w :
  exists r log,
    makeBlobFromPossible data m w = (Normal r, set_console (console w ++ log) w)
    /\ (log = [] \/ exists e, log = [decode_warning e]).
Proof.
  destruct (makeBlobFromPossible_cases data m) as (r & log & Hrun & Hlog).
  exists r, log. split; [apply Hrun|]. destruct Hlog as [?|[_ ?]]; auto.
Qed.

Lemma makeBlobFromPossible_normalize data m w :
  exists log,
    makeBlobFromPossible data m w
    = (Normal (normalize data m), set_console (console w ++ log) w)
    /\ (log = [] \/ (normalize data m = None /\ exists e, log = [decode_warning e])).
Proof.
  destruct (makeBlobFromPossible_cases data m) as (r & log & Hrun & Hlog).
  exists log. unfold normalize. rewrite (Hrun initial_world), (Hrun w). auto.
Qed.

Lemma makeBlobFromPossible_Some data m blob w :
  normalize data m = Some blob ->
  makeBlobFromPossible data m w = (Normal (Some blob), w).
Proof.
  intros Hn. destruct (makeBlobFromPossible_normalize data m w) as (log & -> & Hlog).
  rewrite Hn in *. destruct Hlog as [->|[[=] _]]. now rewrite set_console_id.
Qed.

Lemma makeBlobFromPossible_None data m w :
  normalize data m = None ->
  exists log,
    makeBlobFromPossible data m w = (Normal None, set_console (console w ++ log) w).
Proof.
  intros Hn. destruct (makeBlobFromPossible_normalize data m w) as (log & -> & _).
  rewrite Hn. eauto.
Qed.

(** Whether the result is [null] does not depend on the media type. *)
Lemma normalize_None_any_type data m1 m2 :
  normalize data m1 = None -> normalize data m2 = None.
Proof.
  intros Hn.
  destruct (makeBlobFromPossible_normalize data m1 initial_world) as (l1 & H1 & _).
  destruct (makeBlobFromPossible_normalize data m2 initial_world) as (l2 & H2 & _).
  assert (E1 : fst (makeBlobFromPossible data m1 initial_world) = Normal None)
    by now rewrite H1, Hn.
  apply result_is_null in E1.
  apply (result_is_null data m2 initial_world) in E1.
  rewrite H2 in E1. now injection E1.
Qed.

(** A view: the blob holds the buffer the view is on. *)
Lemma view_payload buffer byteOffset byteLength m w :
  makeBlobFromPossible (JView buffer byteOffset byteLength) m w
  = (Normal (Some {| blob_bytes := buffer; blob_type := m |}), w).
Proof.
  unfold makeBlobFromPossible, new_Blob. cbn. now rewrite app_nil_r.
Qed.

(** A view on all of its buffer is wrapped exactly. *)
Lemma whole_view_payload buffer m w :
  makeBlobFromPossible (JView buffer O (List.length buffer)) m w
  = (Normal (Some {| blob_bytes := view_bytes buffer O (List.length buffer);
                     blob_type := m |}), w).
Proof.
  rewrite view_payload. unfold view_bytes. cbn [skipn]. now rewrite firstn_all.
Qed.

End NormalizerContract.

(** C6. For an absent payload, [null] or [undefined], and every fallback
    media type, the normaliser returns [null]: it raises nothing and leaves
    the state as it was. *)
Theorem absent_payload_is_null `{Platform} (m : jsstring) (w : world) :
  makeBlobFromPossible JNull m w = (Normal None, w)
  /\ makeBlobFromPossible JUndefined m w = (Normal None, w).
Proof. split; reflexivity. Qed.

(** C7. For every raw byte buffer [b] and media type [m], the normaliser
    returns a blob whose bytes are exactly [b] and whose type is [m]; the
    state is untouched. *)
Theorem raw_buffer_is_wrapped `{Platform} (b : list byte) (m : jsstring) (w : world) :
  makeBlobFromPossible (JArrayBuffer b) m w
  = (Normal (Some {| blob_bytes := b; blob_type := m |}), w).
Proof.
  unfold makeBlobFromPossible, new_Blob. cbn. now rewrite app_nil_r.
Qed.

(** C4. The claim asks for the bytes of the view itself.  On the view of
    two bytes at offset 1 of the buffer [1; 2; 3; 4] the code passes
    [data.buffer] to the [Blob] constructor: the blob holds all four bytes
    of the buffer, not the two bytes [2; 3] the view covers. *)
Theorem partial_view_blob_holds_whole_buffer :
  let buffer := ["001"; "002"; "003"; "004"]%byte in
  view_in_bounds buffer 1 2
  /\ view_bytes buffer 1 2 = ["002"; "003"]%byte
  /\ forall (P : Platform) (m : jsstring) (w : world),
       makeBlobFromPossible (JView buffer 1 2) m w
       = (Normal (Some {| blob_bytes := ["001"; "002"; "003"; "004"]%byte;
                          blob_type := m |}), w).
Proof.
  cbv zeta. split; [|split].
  - unfold view_in_bounds. cbn. lia.
  - reflexivity.
  - intros P m w. apply view_payload.
Qed.

(** C10. Every falsy payload gives [null], in any state and for any media
    type; the state is left as it was. *)
Theorem falsy_payload_is_null `{Platform} (data : jsval) (m : jsstring) (w : world) :
  ToBoolean data = false ->
  makeBlobFromPossible data m w = (Normal None, w).
Proof. apply falsy_null. Qed.

(** The empty text, which is valid base64 of no bytes, and [0], [false]
    and [NaN]. *)
Lemma falsy_payload_is_null_witness :
  let P := Sample.platform in
  let m := js "image/png" in
  valid_base64_of [] []
  /\ makeBlobFromPossible (JString []) m initial_world = (Normal None, initial_world)
  /\ makeBlobFromPossible (JNumber (S754_zero false)) m initial_world
     = (Normal None, initial_world)
  /\ makeBlobFromPossible (JBoolean false) m initial_world = (Normal None, initial_world)
  /\ makeBlobFromPossible (JNumber S754_nan) m initial_world
     = (Normal None, initial_world).
Proof.
  cbv zeta. split; [reflexivity|].
  split; [|split; [|split]];
    refine (@falsy_payload_is_null Sample.platform _ _ _ _); reflexivity.
Defined.

(** C2. For every payload, media type and state the normaliser returns
    normally, never with an exception; the state it leaves differs from the
    one it found by at most one warning on the console; a text whose base64
    does not decode gives [null] (and the warning), and so does a payload of
    the last resort that [JSON.stringify] throws on. *)
Theorem normalizer_never_raises `{Platform} (data : jsval) (m : jsstring) (w : world) :
  exists r log,
    makeBlobFromPossible data m w = (Normal r, set_console (console w ++ log) w)
    /\ (List.length log <= 1)%nat
    /\ (forall s e, data = JString s ->
          atob (DOMString (base64_of s)) = Throw e ->
          r = None /\ log = [decode_warning e])
    /\ (forall e, last_resort data = true ->
          JSON_stringify data = Throw e -> r = None /\ log = []).
Proof.
  destruct (makeBlobFromPossible_returns data m w) as (r & log & Hrun & Hlog).
  exists r, log. split; [assumption|]. split; [|split].
  - destruct Hlog as [->|[e ->]]; cbn; lia.
  - intros s e -> Ha.
    assert (Hs : s <> []) by (intros ->; discriminate Ha).
    rewrite string_payload in Hrun by assumption. unfold try_catch in Hrun.
    rewrite (decode_string_Throw _ _ _ _ Ha) in Hrun.
    unfold bind, console_push, modify, ret in Hrun.
    injection Hrun as <- Hw. split; [reflexivity|].
    apply app_inv_head in Hw. now rewrite <- Hw.
  - intros e Hl Hs. rewrite last_resort_payload in Hrun by assumption.
    unfold try_catch, stringify_blob, bind, eval, ret in Hrun. rewrite Hs in Hrun.
    injection Hrun as <- Hw. split; [reflexivity|].
    apply (f_equal console) in Hw. cbn in Hw.
    rewrite <- (app_nil_r (console w)) in Hw at 1.
    apply app_inv_head in Hw. now rewrite <- Hw.
Qed.

(** A text that is not base64, and an object that refers to itself. *)
Lemma normalizer_never_raises_witness :
  let P := Sample.platform in
  (exists log,
     makeBlobFromPossible (JString (js "not base64!")) (js "image/png") initial_world
     = (Normal None, set_console log initial_world))
  /\ makeBlobFromPossible (JObject 3) (js "image/png") initial_world
     = (Normal None, initial_world).
Proof.
  cbv zeta. split.
  - destruct (@normalizer_never_raises Sample.platform
                (JString (js "not base64!")) (js "image/png") initial_world)
      as (r & log & Hrun & _ & Hs & _).
    destruct (Hs _ _ eq_refl eq_refl) as [-> ->].
    eexists. exact Hrun.
  - destruct (@normalizer_never_raises Sample.platform
                (JObject 3) (js "image/png") initial_world)
      as (r & log & Hrun & _ & _ & Hj).
    destruct (Hj _ eq_refl eq_refl) as [-> ->].
    exact Hrun.
Defined.

(** A text that is not empty and is valid base64: the code decodes what
    the specification says, and the blob holds the bytes. *)
Lemma valid_text_payload `{Platform}
    (t : jsstring) (b : list byte) (m : jsstring) (w : world) :
  t <> [] ->
  valid_base64_of t b ->
  makeBlobFromPossible (JString t) m w
  = (Normal (Some {| blob_bytes := b; blob_type := m |}), w).
Proof.
  intros Ht Hv. pose proof (base64_of_valid t b Hv) as Hb.
  rewrite string_payload by assumption. unfold try_catch.
  rewrite (decode_string_Normal t (List.map Byte.to_N b));
    [| rewrite Hb; exact Hv].
  rewrite List.map_map. rewrite (List.map_ext _ id), List.map_id; [reflexivity|].
  intros x. apply to_uint8_to_N.
Qed.

(** C1, as the code has it.  For every text [t] that is not empty and is
    valid base64 of the bytes [b] (the whole text, or with a data-URL
    marker the text after the first [base64,]), and every media type [m],
    the normaliser returns a blob whose bytes are [b] and whose type is
    [m], and leaves the state as it was.  With a marker, what is decoded is
    the text after the first marker. *)
Theorem valid_base64_text_is_decoded `{Platform}
    (t : jsstring) (b : list byte) (m : jsstring) (w : world) :
  t <> [] ->
  valid_base64_of t b ->
  base64_of t = Some (spec_base64_payload t)
  /\ makeBlobFromPossible (JString t) m w
     = (Normal (Some {| blob_bytes := b; blob_type := m |}), w).
Proof.
  intros Ht Hv. split.
  - now apply (base64_of_valid t b).
  - now apply valid_text_payload.
Qed.

(** A data URL and a bare text, both base64 of the bytes [PNG]. *)
Lemma valid_base64_text_is_decoded_witness :
  let P := Sample.platform in
  makeBlobFromPossible (JString (js "data:image/png;base64,UE5H")) (js "image/png")
    initial_world
  = (Normal (Some {| blob_bytes := Sample.png_bytes; blob_type := js "image/png" |}),
     initial_world)
  /\ makeBlobFromPossible (JString (js "UE5H")) (js "image/png") initial_world
     = (Normal (Some {| blob_bytes := Sample.png_bytes; blob_type := js "image/png" |}),
        initial_world).
Proof.
  cbv zeta. split.
  - apply (@valid_base64_text_is_decoded Sample.platform
             (js "data:image/png;base64,UE5H") Sample.png_bytes);
      [discriminate | reflexivity].
  - apply (@valid_base64_text_is_decoded Sample.platform
             (js "UE5H") Sample.png_bytes);
      [discriminate | reflexivity].
Defined.

(** C1 as it is stated fails on the empty text: it is valid base64 of no
    bytes, and the normaliser returns [null] for it, not an empty blob. *)
Lemma empty_text_is_valid_base64_and_null :
  valid_base64_of [] []
  /\ @makeBlobFromPossible Sample.platform (JString []) (js "image/png") initial_world
     = (Normal None, initial_world)
  /\ @makeBlobFromPossible Sample.platform (JString []) (js "image/png") initial_world
     <> (Normal (Some {| blob_bytes := []; blob_type := js "image/png" |}),
         initial_world).
Proof. split; [reflexivity|]. split; [reflexivity|discriminate]. Qed.

(** Every sequence of bytes has such a text: its standard encoding, bare
    or behind a data-URL header. *)
Lemma encode_valid (b : list byte) : valid_base64_of (encode b) b.
Proof.
  unfold valid_base64_of, spec_base64_payload.
  now rewrite (atob_Normal_no_marker _ _ (atob_encode b)), atob_encode.
Qed.

Lemma encoded_bytes_are_decoded `{Platform} (b : list byte) (m : jsstring) (w : world) :
  b <> [] ->
  makeBlobFromPossible (JString (encode b)) m w
  = (Normal (Some {| blob_bytes := b; blob_type := m |}), w).
Proof.
  intros Hb. apply valid_text_payload; [|apply encode_valid].
  unfold encode. destruct b as [|x [|y [|z b]]]; [congruence| | |]; discriminate.
Qed.

(** Every text that is not empty and that [atob] accepts, bare or after the
    first marker, is valid base64 of some bytes, and is decoded to them. *)
Lemma accepted_text_is_decoded `{Platform}
    (t binary : jsstring) (m : jsstring) (w : world) :
  t <> [] ->
  atob (spec_base64_payload t) = Normal binary ->
  valid_base64_of t (List.map to_uint8 binary)
  /\ makeBlobFromPossible (JString t) m w
     = (Normal (Some {| blob_bytes := List.map to_uint8 binary; blob_type := m |}), w).
Proof.
  intros Ht Ha.
  assert (Hv : valid_base64_of t (List.map to_uint8 binary)).
  { unfold valid_base64_of. rewrite Ha. f_equal. now apply atob_Normal_bytes in Ha. }
  split; [assumption | now apply valid_text_payload].
Qed.

(** C9. Whether the normaliser returns [null] does not depend on the media
    type (nor on the state); so when the attempt of line 100 with
    [image/png] gives [null], the retry with [image/jpeg] gives [null] too,
    and so does the whole expression. *)
Theorem null_result_ignores_media_type `{Platform}
    (p : jsval) (m1 m2 : jsstring) (w1 w2 : world) :
  (fst (makeBlobFromPossible p m1 w1) = Normal None
   <-> fst (makeBlobFromPossible p m2 w2) = Normal None)
  /\ (fst (makeBlobFromPossible p (js "image/png") w1) = Normal None ->
      fst (makeBlobFromPossible p (js "image/jpeg") w2) = Normal None
      /\ fst (image_blob p w1) = Normal None).
Proof.
  split.
  - now rewrite !result_is_null.
  - intros Hpng.
    assert (Hjpeg : forall w, fst (makeBlobFromPossible p (js "image/jpeg") w) = Normal None).
    { intros w. rewrite result_is_null in Hpng |- *. exact Hpng. }
    split; [apply Hjpeg|].
    unfold image_blob, bind.
    destruct (makeBlobFromPossible p (js "image/png") w1) as [[[blob|]|e] w'];
      cbn [fst] in Hpng; try discriminate. apply Hjpeg.
Qed.

(** A text that is not base64: both attempts give [null]. *)
Lemma null_result_ignores_media_type_witness :
  let P := Sample.platform in
  fst (makeBlobFromPossible (JString (js "not base64!")) (js "image/jpeg") initial_world)
  = Normal None
  /\ fst (image_blob (JString (js "not base64!")) initial_world) = Normal None.
Proof.
  cbv zeta.
  apply (proj2 (@null_result_ignores_media_type Sample.platform
                  (JString (js "not base64!")) (js "image/png") (js "image/jpeg")
                  initial_world initial_world)).
  reflexivity.
Defined.

(** ** [loadResume] *)

Section LoaderFacts.
Context `{Platform}.

Lemma step_Settle w i r settled s w' :
  runs w !! i = Some r ->
  next_part r settled w = (Normal s, w') ->
  step w (Settle i settled) = set_runs (alter (set_load s) i (runs w')) w'.
Proof.
  intros Hr Hp. unfold step, react, resume_load. now rewrite Hr, Hp.
Qed.

(** [kv.get] gave nothing. *)
Lemma load_after_kv_falsy mounted v w :
  ToBoolean v = false ->
  load_after_kv mounted (Normal v) w
  = (Normal Returned,
     if mounted then snd (setError (Some (js "Resume not found in kv.")) w) else w).
Proof.
  intros Hv. unfold load_after_kv, try_catch, bind, eval. rewrite Hv.
  destruct mounted; reflexivity.
Qed.

(** [kv.get] gave the record. *)
Lemma load_after_kv_found mounted v data path w :
  ToBoolean v = true ->
  JSON_parse v = Normal data ->
  Get data (js "resumePath") = Normal path ->
  load_after_kv mounted (Normal v) w
  = (Normal (AwaitReadResume data), snd (send (fs_read path) w)).
Proof.
  intros Hv Hp Hg. unfold load_after_kv, try_catch, bind, eval.
  now rewrite Hv, Hp, Hg.
Qed.

(** The PDF was read and normalised. *)
Lemma load_after_resume_ok mounted data raw blob imagePath w :
  ToBoolean raw = true ->
  normalize raw (js "application/pdf") = Some blob ->
  Get data (js "imagePath") = Normal imagePath ->
  load_after_resume mounted data (Normal raw) w
  = (Normal (AwaitReadImage data (ObjectURL (next_url (urls w)))),
     snd (with_resume_url mounted blob imagePath w)).
Proof.
  intros Hv Hn Hg. unfold load_after_resume, try_catch, bind, eval.
  rewrite Hv. cbn [negb]. rewrite (makeBlobFromPossible_Some _ _ _ _ Hn).
  unfold with_resume_url, bind, URL_createObjectURL, pushUrl, modify, when, ret.
  rewrite Hg. destruct mounted; reflexivity.
Qed.

(** No image: nothing was read, or what was read cannot be normalised.  In
    a mounted run the feedback is stored and the error cleared; the URLs in
    the state stay as they were and no URL is created. *)
Lemma load_after_image_skipped captured data u raw fb w :
  ToBoolean raw = false \/ normalize raw (js "image/png") = None ->
  Get data (js "feedback") = Normal fb ->
  exists w',
    load_after_image true captured data u (Normal raw) w = (Normal Returned, w')
    /\ view w' = {| imageUrl := imageUrl (view w); resumeUrl := resumeUrl (view w);
                   feedback := or_else fb JNull; error := None |}
    /\ urls w' = urls w /\ createdUrls w' = createdUrls w
    /\ runs w' = runs w /\ life w' = life w.
Proof.
  intros Himg Hfb. unfold load_after_image, try_catch, bind, eval.
  destruct (ToBoolean raw) eqn:Hraw.
  - destruct Himg as [?|Hn]; [discriminate|].
    assert (Hj : normalize raw (js "image/jpeg") = None).
    { pose proof (normalize_None_any_type raw (js "image/png")
                    (js "image/jpeg")) as Hi.
      now apply Hi. }
    unfold image_blob, bind.
    destruct (makeBlobFromPossible_None _ _ w Hn) as (log1 & ->).
    destruct (makeBlobFromPossible_None _ _
                (set_console (console w ++ log1) w) Hj) as (log2 & ->).
    unfold console_push, modify, setFeedback, setError, ret. rewrite Hfb.
    eexists. split; [reflexivity|]. cbn. auto 10.
  - unfold console_push, modify, setFeedback, setError, ret. rewrite Hfb.
    eexists. split; [reflexivity|]. cbn. auto 10.
Qed.

(** The read of the image failed with an exception: the [catch] sets the
    error, and the feedback is not stored. *)
Lemma load_after_image_thrown captured data u e w :
  exists w',
    load_after_image true captured data u (Throw e) w = (Normal Returned, w')
    /\ view w' = {| imageUrl := imageUrl (view w); resumeUrl := resumeUrl (view w);
                   feedback := feedback (view w); error := Some (error_text e) |}.
Proof.
  unfold load_after_image, try_catch, bind, eval, on_error, bind, console_push,
    modify, when, setError, ret.
  eexists. split; reflexivity.
Qed.

(** What [Resume] returns when the state holds no feedback: the scanning
    image instead of the sections. *)
Lemma render_no_feedback v :
  ToBoolean (feedback v) = false ->
  render v
  = Normal {| pdf_link := match imageUrl v, resumeUrl v with
                          | Some _, Some r => Some r
                          | _, _ => None
                          end;
              preview_image := match imageUrl v, resumeUrl v with
                               | Some i, Some _ => Some i
                               | _, _ => None
                               end;
              error_line := match error v with
                            | Some e => if Nat.eqb (List.length e) 0 then None else Some e
                            | None => None
                            end;
              feedback_sections := None |}.
Proof.
  intros Hf. unfold render. rewrite Hf. cbn [and_then].
  destruct (imageUrl v), (resumeUrl v); reflexivity.
Qed.

(** What it returns when the feedback of the state has an [ATS] whose
    [score] and [tips] can be read. *)
Lemma render_with_ATS v ats score tips :
  ToBoolean (feedback v) = true ->
  property (feedback v) (js "ATS") = Normal ats ->
  property ats (js "score") = Normal score ->
  property ats (js "tips") = Normal tips ->
  render v
  = Normal {| pdf_link := match imageUrl v, resumeUrl v with
                          | Some _, Some r => Some r
                          | _, _ => None
                          end;
              preview_image := match imageUrl v, resumeUrl v with
                               | Some i, Some _ => Some i
                               | _, _ => None
                               end;
              error_line := match error v with
                            | Some e => if Nat.eqb (List.length e) 0 then None else Some e
                            | None => None
                            end;
              feedback_sections :=
                Some {| Summary_feedback := feedback v;
                        ATS_score := or_else score (JNumber (S754_zero false));
                        ATS_suggestions := if ToBoolean tips then Tips tips else EmptyArray;
                        Details_feedback := feedback v |} |}.
Proof.
  intros Hf Hats Hscore Htips. unfold render, feedback_sections_of.
  rewrite Hf, Hats. cbn [and_then]. rewrite Hscore. cbn [and_then].
  rewrite Htips. cbn [and_then].
  destruct (imageUrl v), (resumeUrl v); reflexivity.
Qed.

(** With a feedback whose [ATS] is [undefined] or [null], building the
    elements throws at [feedback.ATS.score]: nothing of the view is shown. *)
Lemma render_without_ATS v ats :
  ToBoolean (feedback v) = true ->
  property (feedback v) (js "ATS") = Normal ats ->
  ats = JUndefined \/ ats = JNull ->
  render v = Throw (property_TypeError (js "score")).
Proof.
  intros Hf Hats Hno. unfold render, feedback_sections_of.
  rewrite Hf, Hats. cbn [and_then].
  destruct Hno as [-> | ->]; reflexivity.
Qed.

(** When [Resume] returns, the image is rendered exactly when both URLs
    are in the state, inside the link to the PDF; the sections exactly when
    the feedback is truthy. *)
Lemma render_Normal v rd :
  render v = Normal rd ->
  pdf_link rd = match imageUrl v, resumeUrl v with
                | Some _, Some r => Some r
                | _, _ => None
                end
  /\ preview_image rd = match imageUrl v, resumeUrl v with
                        | Some i, Some _ => Some i
                        | _, _ => None
                        end
  /\ (feedback_sections rd <> None <-> ToBoolean (feedback v) = true).
Proof.
  unfold render. destruct (ToBoolean (feedback v)).
  - destruct (feedback_sections_of (feedback v)) as [s|e]; cbn [and_then];
      [|discriminate].
    intros [= <-]. cbn. destruct (imageUrl v), (resumeUrl v); repeat split;
      intros; congruence.
  - cbn [and_then]. intros [= <-]. cbn.
    destruct (imageUrl v), (resumeUrl v); repeat split; intros; congruence.
Qed.

End LoaderFacts.

(** ** The object URLs *)

Section Handles.
Context `{Platform}.

Ltac unfold_js :=
  unfold load_after_kv, load_after_resume, load_after_image, image_blob, on_error,
    try_catch, bind, eval, ret, when, modify, console_push, send, pushUrl,
    setError, setFeedback, setResumeUrl, setImageUrl, URL_createObjectURL.

Ltac loader_case :=
  match goal with
  | |- context [makeBlobFromPossible ?d ?m ?w] =>
      let r := fresh "r" in
      let log := fresh "log" in
      let Hr := fresh "Hr" in
      destruct (makeBlobFromPossible_returns d m w) as (r & log & Hr & _);
      rewrite Hr; clear Hr
  | |- context [match ?x with _ => _ end] =>
      lazymatch x with
      | context [match _ with _ => _ end] => fail
      | _ => destruct x eqn:?
      end
  end; cbn -[makeBlobFromPossible js].

(** What a part of the load does to the handles: it revokes nothing, and
    every URL it creates it also pushes on [createdUrls.current]. *)
Lemma next_part_handles r settled w :
  exists s w' new,
    next_part r settled w = (Normal s, w')
    /\ runs w' = runs w /\ life w' = life w
    /\ revoke_calls (urls w') = revoke_calls (urls w)
    /\ created (urls w') = created (urls w) ++ new
    /\ createdUrls w' = createdUrls w ++ List.map fst new
    /\ next_url (urls w') = next_url (urls w) + N.of_nat (List.length new)
    /\ (new = [] \/ exists b, new = [(ObjectURL (next_url (urls w)), b)]).
Proof.
  unfold next_part. destruct (load r); unfold_js; cbn -[makeBlobFromPossible js].
  all: repeat loader_case.
  all: try (eexists _, _, []; cbn -[js]; rewrite ?app_nil_r, ?N.add_0_r;
            repeat split; auto; fail).
  all: eexists _, _, [(_, _)]; cbn -[js];
    repeat (split; [reflexivity|]);
    (split; [cbn; lia | right; eexists; reflexivity]).
Qed.

(** The loop of the clean-up calls [revokeObjectURL] once on each URL of
    the list, in order, and ends normally whatever the calls throw. *)
Lemma revoke_each_spec us w :
  revoke_each us w
  = (Normal tt,
     set_urls {| next_url := next_url (urls w); created := created (urls w);
                 revoke_calls := revoke_calls (urls w) ++ us |} w).
Proof.
  revert w; induction us as [|u us IH]; intros w; cbn [revoke_each].
  - unfold ret. destruct w as [? ? [? ? ?] ? ? ? ?]. unfold set_urls. cbn.
    now rewrite app_nil_r.
  - unfold bind, try_catch, URL_revokeObjectURL, ret. destruct u as [n].
    destruct (revoke_throws n); rewrite IH; unfold set_urls; cbn;
      now rewrite <- app_assoc.
Qed.

Lemma cleanup_spec i w :
  cleanup i w
  = (Normal tt,
     set_createdUrls []
       (set_urls {| next_url := next_url (urls w); created := created (urls w);
                    revoke_calls := revoke_calls (urls w) ++ createdUrls w |}
          (set_runs (alter (set_mounted false) i (runs w)) w))).
Proof.
  unfold cleanup, bind, modify. now rewrite revoke_each_spec.
Qed.

Lemma run_effect_handles id w :
  exists w', run_effect id w = (Normal tt, w')
             /\ urls w' = urls w /\ createdUrls w' = createdUrls w
             /\ life w' = Active (List.length (runs w)).
Proof. eexists. split; [reflexivity|]. cbn. auto. Qed.

Lemma handles_inv_initial : handles_inv initial_world.
Proof. repeat split. Qed.

Lemma handles_inv_step w e : handles_inv w -> handles_inv (step w e).
Proof.
  intros (Hsplit & Hnum & Hnext). unfold step, react.
  destruct e as [id | i settled | ].
  - destruct (life w) as [|i|]; [| |now repeat split].
    + destruct (run_effect_handles id w) as (w' & -> & Hu & Hc & _).
      unfold handles_inv. cbn [snd]. now rewrite Hu, Hc.
    + unfold bind. rewrite cleanup_spec.
      match goal with |- context [run_effect id ?w0] =>
        destruct (run_effect_handles id w0) as (w' & -> & Hu & Hc & _) end.
      unfold handles_inv. cbn [snd]. rewrite Hu, Hc. cbn.
      rewrite app_nil_r. auto.
  - unfold resume_load. destruct (runs w !! i) as [r|]; [|now repeat split].
    destruct (next_part_handles r settled w)
      as (s & w' & new & -> & _ & _ & Hrev & Hcr & Hcu & Hn & Hnew).
    assert (Hinv : handles_inv w').
    { unfold handles_inv. rewrite Hrev, Hcr, Hcu, Hn.
      rewrite map_app, length_app. split; [|split].
      - now rewrite Hsplit, <- app_assoc.
      - rewrite seq_app, map_app. f_equal; [exact Hnum|].
        destruct Hnew as [->|[b ->]]; [reflexivity|]. cbn.
        now rewrite Hnext.
      - lia. }
    exact Hinv.
  - destruct (life w) as [|i|]; [now repeat split | | now repeat split].
    unfold bind. rewrite cleanup_spec. unfold modify, handles_inv. cbn.
    rewrite app_nil_r. auto.
Qed.

(** In every state the view can reach, the URLs handed out are, in order,
    those revoked followed by those still on [createdUrls.current]. *)
Lemma handles_inv_run w es : handles_inv w -> handles_inv (run_events w es).
Proof.
  revert w; induction es as [|e es IH]; intros w Hw; [exact Hw|].
  apply IH. now apply handles_inv_step.
Qed.

Lemma created_NoDup w : handles_inv w -> NoDup (List.map fst (created (urls w))).
Proof.
  intros (_ & -> & _). apply NoDup_fmap_2; [|apply NoDup_seq].
  intros a b [= E]. now apply Nat2N.inj.
Qed.

(** No URL is revoked twice, and none that is still on the list has been
    revoked. *)
Lemma revoked_at_most_once w :
  handles_inv w -> NoDup (revoke_calls (urls w) ++ createdUrls w).
Proof.
  intros Hw. pose proof (created_NoDup w Hw) as Hnd.
  destruct Hw as (E & _). now rewrite <- E.
Qed.

(** A clean-up that React still holds revokes every URL not yet revoked. *)
Lemma teardown_revokes_all w i :
  life w = Active i -> handles_inv w ->
  let w' := step w Unmount in
  createdUrls w' = []
  /\ revoke_calls (urls w') = List.map fst (created (urls w'))
  /\ NoDup (revoke_calls (urls w'))
  /\ life w' = Unmounted.
Proof.
  intros Hl Hw. pose proof (handles_inv_step w Unmount Hw) as Hw'.
  cbv zeta. revert Hw'. unfold step, react. rewrite Hl. unfold bind.
  rewrite cleanup_spec. unfold modify. cbn. intros Hw'.
  pose proof (revoked_at_most_once _ Hw') as Hnd. cbn in Hnd.
  rewrite app_nil_r in Hnd. destruct Hw as (-> & _). auto.
Qed.

(** After the unmount nothing is revoked any more, whatever happens. *)
Lemma unmounted_never_revokes w es :
  life w = Unmounted ->
  life (run_events w es) = Unmounted
  /\ revoke_calls (urls (run_events w es)) = revoke_calls (urls w).
Proof.
  unfold run_events.
  revert w; induction es as [|e es IH]; intros w Hl; [auto|].
  cbn [fold_left].
  assert (Hstep : life (step w e) = Unmounted
                  /\ revoke_calls (urls (step w e)) = revoke_calls (urls w)).
  { unfold step, react. destruct e as [id | i settled | ]; rewrite ?Hl; auto.
    unfold resume_load. destruct (runs w !! i) as [r|]; [|auto].
    destruct (next_part_handles r settled w)
      as (s & w' & new & -> & _ & Hlife & Hrev & _).
    cbn. now rewrite Hlife, Hrev. }
  destruct Hstep as [Hl' Hr']. destruct (IH _ Hl') as [? ?].
  split; [assumption | congruence].
Qed.

End Handles.

(** The teardown scenario: a load that creates two URLs, then the unmount.
    Both URLs are revoked, once each, although revoking the second one
    throws. *)
Lemma teardown_after_successful_load :
  let w := @run_events Sample.platform initial_world
             [RunEffect (Some (js "1")); Settle 0 (Normal (JString Sample.record_text));
              Settle 0 (Normal (JArrayBuffer Sample.pdf_bytes));
              Settle 0 (Normal (JString (js "data:image/png;base64,UE5H")));
              Unmount] in
  List.map fst (created (urls w)) = [ObjectURL 0; ObjectURL 1]
  /\ revoke_calls (urls w) = [ObjectURL 0; ObjectURL 1]
  /\ createdUrls w = []
  /\ Sample.revoke 1 <> None.
Proof. cbv zeta. repeat split. discriminate. Qed.

(** ** The scenarios of the detail view *)

(** C8. When [kv.get] settles with [null], the load of that run creates no
    object URL, pushes none on [createdUrls.current], sends no further
    request and is over; and in a run that is still mounted it sets the
    error state to exactly "Resume not found in kv.". *)
Theorem kv_null_is_not_found `{Platform} (w : world) (i : nat) (r : effect_run) :
  runs w !! i = Some r ->
  load r = AwaitKvGet ->
  let w' := step w (Settle i (Normal JNull)) in
  (mounted r = true -> error (view w') = Some (js "Resume not found in kv."))
  /\ urls w' = urls w
  /\ createdUrls w' = createdUrls w
  /\ requests w' = requests w
  /\ runs w' !! i = Some (set_load Returned r).
Proof.
  intros Hr Hl w'. subst w'.
  erewrite step_Settle; [| eassumption |].
  2:{ unfold next_part. rewrite Hl. now apply load_after_kv_falsy. }
  assert (Hi : alter (set_load Returned) i (runs w) !! i = Some (set_load Returned r)).
  { rewrite list_lookup_alter, Hr. case_decide; [reflexivity|congruence]. }
  destruct (mounted r); cbn; repeat split; auto; discriminate.
Qed.

(** The view is mounted for resume 1 and the store has nothing under
    [resume:1]. *)
Lemma kv_null_is_not_found_witness :
  let P := Sample.platform in
  let w := run_events initial_world [RunEffect (Some (js "1")); Settle 0 (Normal JNull)] in
  error (view w) = Some (js "Resume not found in kv.")
  /\ created (urls w) = []
  /\ createdUrls w = []
  /\ requests w = [kv_get (js "resume:1")].
Proof.
  cbv zeta.
  destruct (@kv_null_is_not_found Sample.platform
              (@step Sample.platform initial_world (RunEffect (Some (js "1")))) 0%nat
              {| mounted := true; captured_imageUrl := None; load := AwaitKvGet |}
              eq_refl eq_refl)
    as (He & Hu & Hc & Hq & _).
  unfold run_events. cbn [fold_left].
  rewrite (He eq_refl), Hu, Hc, Hq. repeat split.
Defined.

(** C3, as the code has it.  In a view just mounted, when the record is
    found, the PDF is read and normalised, and the image is not (nothing
    was read, or what was read cannot be normalised): the URL of the PDF is
    created and stored in [resumeUrl], the feedback of the record is
    stored, the error is [null] and [imageUrl] stays empty.  The view then
    renders no error line, no image, and no link to the PDF, which line 146
    renders only together with the image; it renders the feedback sections
    when the feedback has an [ATS] whose [score] and [tips] can be read,
    and the scanning image when the record has no feedback. *)
Theorem image_failure_keeps_feedback `{Platform} (id : option jsstring)
    (kvText data resumePath imagePath fb pdfRaw imageRaw : jsval) (blob : Blob) :
  ToBoolean kvText = true ->
  JSON_parse kvText = Normal data ->
  Get data (js "resumePath") = Normal resumePath ->
  Get data (js "imagePath") = Normal imagePath ->
  Get data (js "feedback") = Normal fb ->
  ToBoolean pdfRaw = true ->
  normalize pdfRaw (js "application/pdf") = Some blob ->
  ToBoolean imageRaw = false \/ normalize imageRaw (js "image/png") = None ->
  let w := run_events initial_world
             [RunEffect id; Settle 0 (Normal kvText); Settle 0 (Normal pdfRaw);
              Settle 0 (Normal imageRaw)] in
  view w = {| imageUrl := None; resumeUrl := Some (ObjectURL 0);
              feedback := or_else fb JNull; error := None |}
  /\ created (urls w) = [(ObjectURL 0, blob)]
  /\ (ToBoolean fb = false ->
      render (view w)
      = Normal {| pdf_link := None; preview_image := None; error_line := None;
                  feedback_sections := None |})
  /\ (forall ats score tips,
        ToBoolean fb = true ->
        property fb (js "ATS") = Normal ats ->
        property ats (js "score") = Normal score ->
        property ats (js "tips") = Normal tips ->
        render (view w)
        = Normal {| pdf_link := None; preview_image := None; error_line := None;
                    feedback_sections :=
                      Some {| Summary_feedback := fb;
                              ATS_score := or_else score (JNumber (S754_zero false));
                              ATS_suggestions :=
                                if ToBoolean tips then Tips tips else EmptyArray;
                              Details_feedback := fb |} |}).
Proof.
  intros Hkv Hparse Hrp Hip Hfb Hpdf Hblob Himg.
  unfold run_events. cbn [fold_left].
  set (w1 := step initial_world (RunEffect id)).
  assert (Hw1 : runs w1 !! 0%nat
                = Some {| mounted := true; captured_imageUrl := None; load := AwaitKvGet |})
    by reflexivity.
  erewrite (step_Settle w1); [| exact Hw1 |].
  2:{ unfold next_part. cbn [load mounted]. eapply load_after_kv_found; eassumption. }
  match goal with |- context [step ?w (Settle 0 (Normal pdfRaw))] => set (w2 := w) end.
  assert (Hw2 : runs w2 !! 0%nat
                = Some {| mounted := true; captured_imageUrl := None;
                          load := AwaitReadResume data |})
    by reflexivity.
  erewrite (step_Settle w2); [| exact Hw2 |].
  2:{ unfold next_part. cbn [load mounted]. eapply load_after_resume_ok; eassumption. }
  match goal with |- context [step ?w (Settle 0 (Normal imageRaw))] => set (w3 := w) end.
  assert (Hw3 : runs w3 !! 0%nat
                = Some {| mounted := true; captured_imageUrl := None;
                          load := AwaitReadImage data (ObjectURL 0) |})
    by reflexivity.
  destruct (load_after_image_skipped None data (ObjectURL 0) imageRaw fb w3 Himg Hfb)
    as (w4 & Hrun & Hview & Hurls & _).
  erewrite (step_Settle w3); [| exact Hw3 | exact Hrun].
  cbn [view urls set_runs]. rewrite Hview, Hurls.
  split; [reflexivity|]. split; [reflexivity|]. split.
  - intros Hf. rewrite render_no_feedback; [reflexivity|].
    cbn. unfold or_else. now rewrite Hf.
  - intros ats score tips Hf Hats Hscore Htips.
    assert (E : or_else fb JNull = fb) by (unfold or_else; now rewrite Hf).
    rewrite (render_with_ATS _ ats score tips); cbn [feedback]; rewrite ?E;
      try assumption. reflexivity.
Qed.

(** The stored record of resume 1, its PDF as a byte buffer, and no file
    at the image path: the sections are rendered, with the score 80. *)
Lemma image_failure_keeps_feedback_witness :
  let P := Sample.platform in
  let w := run_events initial_world
             [RunEffect (Some (js "1")); Settle 0 (Normal (JString Sample.record_text));
              Settle 0 (Normal (JArrayBuffer Sample.pdf_bytes));
              Settle 0 (Normal JNull)] in
  view w = {| imageUrl := None; resumeUrl := Some (ObjectURL 0);
              feedback := JObject 2; error := None |}
  /\ created (urls w)
     = [(ObjectURL 0,
         {| blob_bytes := Sample.pdf_bytes; blob_type := js "application/pdf" |})]
  /\ render (view w)
     = Normal {| pdf_link := None; preview_image := None; error_line := None;
                 feedback_sections :=
                   Some {| Summary_feedback := JObject 2;
                           ATS_score := JNumber (S754_finite false 5 4);
                           ATS_suggestions := Tips (JObject 6);
                           Details_feedback := JObject 2 |} |}.
Proof.
  cbv zeta.
  destruct (@image_failure_keeps_feedback Sample.platform (Some (js "1"))
              (JString Sample.record_text) (JObject 1) (JString (js "r/1.pdf"))
              (JString (js "r/1.png")) (JObject 2) (JArrayBuffer Sample.pdf_bytes) JNull
              {| blob_bytes := Sample.pdf_bytes; blob_type := js "application/pdf" |}
              eq_refl eq_refl eq_refl eq_refl eq_refl eq_refl eq_refl
              (or_introl eq_refl))
    as (Hview & Hcreated & _ & Hrender).
  specialize (Hrender (JObject 5) (JNumber (S754_finite false 5 4)) (JObject 6)
                eq_refl eq_refl eq_refl eq_refl).
  vm_compute in Hview, Hcreated, Hrender. vm_compute.
  split; [exact Hview|]. split; [exact Hcreated | exact Hrender].
Defined.

(** C3 as it is stated fails.  With the record of resume 1 found and its
    PDF read and normalised: when nothing is read at the image path, the
    URL of the PDF is in the state but no link to it is rendered; and when
    the read of the image is rejected, an error line is rendered and the
    feedback is not. *)
Lemma image_failure_hides_pdf_link :
  let found :=
    [RunEffect (Some (js "1")); Settle 0 (Normal (JString Sample.record_text));
     Settle 0 (Normal (JArrayBuffer Sample.pdf_bytes))] in
  let w1 := @run_events Sample.platform initial_world (found ++ [Settle 0 (Normal JNull)]) in
  let w2 := @run_events Sample.platform initial_world
              (found ++ [Settle 0 (Throw (Sample.TypeError "read failed"))]) in
  (resumeUrl (view w1) = Some (ObjectURL 0)
   /\ exists rd, @render Sample.platform (view w1) = Normal rd
                 /\ pdf_link rd = None)
  /\ @render Sample.platform (view w2)
     = Normal {| pdf_link := None; preview_image := None;
                 error_line := Some (js "read failed");
                 feedback_sections := None |}.
Proof.
  cbv zeta. split; [split; [reflexivity|] | reflexivity].
  eexists. split; [vm_compute; reflexivity | reflexivity].
Qed.

(** C5.  The view is mounted for resume 1 and unmounted while [kv.get] is
    pending; the load goes on when the record and then the PDF arrive: it
    creates an object URL after the clean-up has run.  That URL is on
    [createdUrls.current], the view is unmounted, and whatever happens
    afterwards [revokeObjectURL] is never called, on it or on any other. *)
Theorem handle_created_after_unmount_leaks :
  let w := @run_events Sample.platform initial_world
             [RunEffect (Some (js "1")); Unmount;
              Settle 0 (Normal (JString Sample.record_text));
              Settle 0 (Normal (JArrayBuffer Sample.pdf_bytes))] in
  List.map fst (created (urls w)) = [ObjectURL 0]
  /\ createdUrls w = [ObjectURL 0]
  /\ life w = Unmounted
  /\ forall es : list event,
       revoke_calls (urls (@run_events Sample.platform w es)) = [].
Proof.
  cbv zeta. split; [reflexivity|]. split; [reflexivity|]. split; [reflexivity|].
  intros es.
  match goal with |- context [run_events ?w0 es] =>
    destruct (@unmounted_never_revokes Sample.platform w0 es eq_refl) as [_ ->] end.
  reflexivity.
Qed.

(** * Further properties of the normaliser *)

Section MarkerFacts.

Lemma startsWith_nth s p i c :
  startsWith s p = true -> nth_error p i = Some c -> nth_error s i = Some c.
Proof.
  revert s i; induction p as [|a p IH]; intros [|b s] [|i]; cbn; try discriminate.
  - intros Hs [= <-]. apply andb_true_iff in Hs as [Hab _].
    apply N.eqb_eq in Hab. now subst.
  - intros Hs Hi. apply andb_true_iff in Hs as [_ Hs]. now apply (IH s i).
Qed.

Lemma startsWith_app p rest : startsWith (p ++ rest) p = true.
Proof.
  induction p as [|a p IH]; [destruct rest; reflexivity|].
  cbn [List.app startsWith]. unfold code_unit_eqb. now rewrite N.eqb_refl, IH.
Qed.

Lemma indexOf_startsWith s p : startsWith s p = true -> indexOf s p = Some O.
Proof. intros Hs. destruct s; cbn [indexOf]; now rewrite Hs. Qed.

(** A text without a comma is followed by the first marker. *)
Lemma indexOf_marker_after h rest :
  ~ In 44 h ->
  indexOf (h ++ js "base64," ++ rest) (js "base64,") = Some (List.length h).
Proof.
  induction h as [|x h IH]; intros Hh.
  - apply indexOf_startsWith. exact (startsWith_app (js "base64,") rest).
  - cbn [List.app indexOf List.length].
    destruct (startsWith (x :: h ++ js "base64," ++ rest) (js "base64,")) eqn:Es.
    + exfalso. apply (startsWith_nth _ _ 6%nat 44) in Es; [|reflexivity].
      change (js "base64," ++ rest) with (js "base64" ++ 44 :: rest) in Es.
      change (x :: h ++ js "base64" ++ 44 :: rest)
        with ((x :: h) ++ js "base64" ++ 44 :: rest) in Es.
      rewrite app_assoc in Es.
      rewrite nth_error_app1 in Es by (rewrite length_app; cbn; lia).
      apply nth_error_In in Es. apply in_app_or in Es as [Es|Es]; [now apply Hh|].
      cbn in Es. repeat destruct Es as [Es|Es]; try discriminate Es. exact Es.
    + rewrite IH; [reflexivity|]. intros Hin. apply Hh. now right.
Qed.

(** With a marker, the code decodes what lies between the first marker and
    the next one, or the end of the text. *)
Lemma base64_of_marker t k :
  indexOf t (js "base64,") = Some k ->
  base64_of t
  = Some (let rest := skipn (k + 7) t in
          match indexOf rest (js "base64,") with
          | Some j => firstn j rest
          | None => rest
          end).
Proof.
  intros Hk. unfold base64_of. rewrite includes_indexOf, Hk. unfold split.
  rewrite (split_scan_Some _ _ _ k) by (discriminate || assumption).
  change (List.length (js "base64,")) with 7%nat. cbv zeta.
  destruct (indexOf (skipn (k + 7) t) (js "base64,")) as [j|] eqn:Ej.
  - rewrite (split_scan_Some _ _ _ j) by (discriminate || assumption). reflexivity.
  - rewrite (split_scan_None _ _ _ Ej). reflexivity.
Qed.

Lemma skipn_past {A} (h r : list A) k :
  skipn (List.length h + k) (h ++ r) = skipn k r.
Proof. induction h as [|x h IH]; [reflexivity | exact IH]. Qed.

Lemma atob_Normal_no_comma data binary : atob data = Normal binary -> ~ In 44 data.
Proof.
  intros Ha Hc. destruct (atob_Normal_In _ _ _ Ha Hc) as [Hw|[He|Hv]];
    [discriminate Hw | discriminate He | now apply Hv].
Qed.

End MarkerFacts.

(** X1. Normalising a result again gives the same result, whatever the
    media type of the second pass: [null] stays [null] (line 38) and a blob
    is returned as it is, with the type it has (line 40). *)
Theorem normalize_idempotent `{Platform} (p : jsval) (m m' : jsstring) :
  normalize (of_result (normalize p m)) m' = normalize p m.
Proof. destruct (normalize p m) as [b|]; reflexivity. Qed.

(** X2. A payload of the last resort (truthy, and not a blob, a buffer, a
    view or a text) gives [null] only when [JSON.stringify] throws.  When
    it returns a text the blob holds the UTF-8 bytes of the text; when it
    returns [undefined] the blob holds the nine bytes of the text
    "undefined". *)
Theorem last_resort_blob `{Platform} (data : jsval) (m : jsstring) (w : world) :
  last_resort data = true ->
  makeBlobFromPossible data m w
  = (Normal
       match JSON_stringify data with
       | Normal (Some text) =>
           Some {| blob_bytes := Utf8.utf8_encode text; blob_type := m |}
       | Normal None =>
           Some {| blob_bytes := ["u"; "n"; "d"; "e"; "f"; "i"; "n"; "e"; "d"]%byte;
                   blob_type := m |}
       | Throw _ => None
       end, w).
Proof.
  intros Hl. rewrite last_resort_payload by assumption.
  unfold try_catch, stringify_blob, bind, eval, ret, new_Blob.
  destruct (JSON_stringify data) as [[text|]|e]; cbn [DOMString List.map List.concat part_bytes].
  - now rewrite app_nil_r.
  - reflexivity.
  - reflexivity.
Qed.

(** A symbol, which [JSON.stringify] maps to [undefined], and an object
    that serialises to the text of two braces. *)
Lemma last_resort_blob_witness :
  let P := Sample.platform in
  makeBlobFromPossible (JSymbol 0) (js "image/png") initial_world
  = (Normal (Some {| blob_bytes := ["u"; "n"; "d"; "e"; "f"; "i"; "n"; "e"; "d"]%byte;
                     blob_type := js "image/png" |}), initial_world)
  /\ makeBlobFromPossible (JObject 4) (js "image/png") initial_world
     = (Normal (Some {| blob_bytes := ["{"; "}"]%byte; blob_type := js "image/png" |}),
        initial_world).
Proof.
  cbv zeta. split.
  - exact (@last_resort_blob Sample.platform (JSymbol 0) (js "image/png")
             initial_world eq_refl).
  - exact (@last_resort_blob Sample.platform (JObject 4) (js "image/png")
             initial_world eq_refl).
Defined.

(** X3. For a view that lies within its buffer, the blob holds the whole
    buffer, so the bytes of the view are in it from [byteOffset] on; the
    blob is exactly the bytes of the view if and only if the view covers
    the whole buffer. *)
Theorem view_blob_is_its_buffer `{Platform}
    (buffer : list byte) (byteOffset byteLength : nat) (m : jsstring) (w : world) :
  view_in_bounds buffer byteOffset byteLength ->
  exists blob,
    makeBlobFromPossible (JView buffer byteOffset byteLength) m w
    = (Normal (Some blob), w)
    /\ blob_type blob = m
    /\ view_bytes (blob_bytes blob) byteOffset byteLength
       = view_bytes buffer byteOffset byteLength
    /\ (blob_bytes blob = view_bytes buffer byteOffset byteLength
        <-> byteOffset = O /\ byteLength = List.length buffer).
Proof.
  unfold view_in_bounds. intros Hb. eexists. split; [apply view_payload|].
  cbn [blob_type blob_bytes]. split; [reflexivity|]. split; [reflexivity|].
  unfold view_bytes. split.
  - intros E. apply (f_equal (@List.length byte)) in E.
    rewrite length_firstn, length_skipn in E. lia.
  - intros [-> ->]. cbn [skipn]. now rewrite firstn_all.
Qed.

Lemma view_blob_is_its_buffer_witness :
  let P := Sample.platform in
  exists blob,
    makeBlobFromPossible (JView Sample.pdf_bytes 1 2) (js "image/png") initial_world
    = (Normal (Some blob), initial_world)
    /\ blob_bytes blob = Sample.pdf_bytes
    /\ view_bytes (blob_bytes blob) 1 2 = ["P"; "D"]%byte.
Proof.
  cbv zeta.
  destruct (@view_blob_is_its_buffer Sample.platform Sample.pdf_bytes 1 2
              (js "image/png") initial_world) as (blob & Hrun & _ & Hview & _).
  - unfold view_in_bounds. cbn. lia.
  - exists blob. split; [exact Hrun|]. split; [|exact Hview].
    cbn in Hrun. now injection Hrun as <-.
Defined.

(** X4. The round trip of a data URL: for every header without a comma
    and every sequence of bytes [b], empty or not, the text made of the
    header, the marker [base64,] and the standard base64 of [b] gives a
    blob whose bytes are [b]. *)
Theorem data_url_round_trip `{Platform}
    (header : jsstring) (b : list byte) (m : jsstring) (w : world) :
  ~ In 44 header ->
  makeBlobFromPossible (JString (header ++ js "base64," ++ encode b)) m w
  = (Normal (Some {| blob_bytes := b; blob_type := m |}), w).
Proof.
  intros Hh. apply valid_text_payload.
  - destruct header; discriminate.
  - unfold valid_base64_of, spec_base64_payload.
    rewrite (indexOf_marker_after _ _ Hh), skipn_past.
    change (skipn 7 (js "base64," ++ encode b)) with (encode b).
    apply atob_encode.
Qed.

(** The data URL of the bytes [PNG], and a data URL of no bytes. *)
Lemma data_url_round_trip_witness :
  let P := Sample.platform in
  makeBlobFromPossible (JString (js "data:image/png;base64,UE5H")) (js "image/png")
    initial_world
  = (Normal (Some {| blob_bytes := Sample.png_bytes; blob_type := js "image/png" |}),
     initial_world)
  /\ makeBlobFromPossible (JString (js "data:image/png;base64,")) (js "image/png")
       initial_world
     = (Normal (Some {| blob_bytes := []; blob_type := js "image/png" |}),
        initial_world).
Proof.
  cbv zeta. split.
  - refine (@data_url_round_trip Sample.platform (js "data:image/png;")
              Sample.png_bytes (js "image/png") initial_world _).
    cbn. intuition discriminate.
  - refine (@data_url_round_trip Sample.platform (js "data:image/png;")
              [] (js "image/png") initial_world _).
    cbn. intuition discriminate.
Defined.

(** X5. With two markers, only the text between the first and the second
    is decoded: when it is valid base64 of [b], the blob holds [b],
    whatever follows the second marker. *)
Theorem text_after_second_marker_is_ignored `{Platform}
    (header s rest : jsstring) (b : list byte) (m : jsstring) (w : world) :
  ~ In 44 header ->
  atob s = Normal (List.map Byte.to_N b) ->
  makeBlobFromPossible
    (JString (header ++ js "base64," ++ s ++ js "base64," ++ rest)) m w
  = (Normal (Some {| blob_bytes := b; blob_type := m |}), w).
Proof.
  intros Hh Ha.
  rewrite string_payload by (destruct header; discriminate).
  unfold try_catch.
  rewrite (decode_string_Normal _ (List.map Byte.to_N b)).
  - rewrite List.map_map, (List.map_ext _ id), List.map_id; [reflexivity|].
    intros x. apply to_uint8_to_N.
  - rewrite (base64_of_marker _ _ (indexOf_marker_after _ _ Hh)). cbv zeta.
    rewrite skipn_past.
    change (skipn 7 (js "base64," ++ s ++ js "base64," ++ rest))
      with (s ++ js "base64," ++ rest).
    rewrite (indexOf_marker_after _ _ (atob_Normal_no_comma _ _ Ha)).
    rewrite firstn_app, firstn_all, Nat.sub_diag. cbn [firstn].
    rewrite app_nil_r. exact Ha.
Qed.

Lemma text_after_second_marker_is_ignored_witness :
  let P := Sample.platform in
  makeBlobFromPossible (JString (js "data:;base64,UE5Hbase64,not base64!"))
    (js "image/png") initial_world
  = (Normal (Some {| blob_bytes := Sample.png_bytes; blob_type := js "image/png" |}),
     initial_world).
Proof.
  cbv zeta.
  refine (@text_after_second_marker_is_ignored Sample.platform (js "data:;")
            (js "UE5H") (js "not base64!") Sample.png_bytes (js "image/png")
            initial_world _ _).
  - cbn. intuition discriminate.
  - reflexivity.
Defined.

(** X6. A text that is not empty and holds only ASCII white space gives a
    blob of no bytes, not [null]. *)
Theorem blank_text_is_empty_blob `{Platform} (t : jsstring) (m : jsstring) (w : world) :
  t <> [] ->
  Forall (fun c => is_ascii_whitespace c = true) t ->
  makeBlobFromPossible (JString t) m w
  = (Normal (Some {| blob_bytes := []; blob_type := m |}), w).
Proof.
  intros Ht Hws. apply valid_text_payload; [assumption|].
  assert (Hno : indexOf t (js "base64,") = None).
  { apply (indexOf_None_In _ _ 44); [cbn; tauto|].
    intros Hc. rewrite List.Forall_forall in Hws. now apply Hws in Hc. }
  assert (Hs : strip_whitespace t = []).
  { unfold strip_whitespace. clear Ht Hno.
    induction Hws as [|c t Hc _ IH]; cbn [List.filter]; [reflexivity|].
    now rewrite Hc. }
  unfold valid_base64_of, spec_base64_payload. rewrite Hno.
  unfold atob. now rewrite Hs.
Qed.

Lemma blank_text_is_empty_blob_witness :
  let P := Sample.platform in
  makeBlobFromPossible (JString [32; 10]) (js "image/png") initial_world
  = (Normal (Some {| blob_bytes := []; blob_type := js "image/png" |}), initial_world).
Proof.
  cbv zeta.
  refine (@blank_text_is_empty_blob Sample.platform [32; 10] (js "image/png")
            initial_world _ _).
  - discriminate.
  - repeat constructor.
Defined.

(** * Further properties of the loader *)

Section ViewFacts.
Context `{Platform}.

Ltac unfold_parts :=
  unfold load_after_kv, load_after_resume, load_after_image, image_blob, on_error,
    try_catch, bind, eval, ret, when, modify, console_push, send, pushUrl,
    setError, setFeedback, setResumeUrl, setImageUrl, URL_createObjectURL.

Ltac part_case :=
  match goal with
  | |- context [makeBlobFromPossible ?d ?m ?w] =>
      let r := fresh "r" in
      let log := fresh "log" in
      let Hr := fresh "Hr" in
      destruct (makeBlobFromPossible_returns d m w) as (r & log & Hr & _);
      rewrite Hr; clear Hr
  | |- context [match ?x with _ => _ end] =>
      lazymatch x with
      | context [match _ with _ => _ end] => fail
      | _ => destruct x eqn:?
      end
  end; cbn -[makeBlobFromPossible js].

(** What a part of the load does to the state of the view. *)
Lemma next_part_view r settled w :
  exists s w',
    next_part r settled w = (Normal s, w')
    /\ (mounted r = false -> view w' = view w)
    /\ (resumeUrl (view w') = resumeUrl (view w)
        \/ (resumeUrl (view w') = Some (ObjectURL (next_url (urls w)))
            /\ exists b, created (urls w')
                         = created (urls w) ++ [(ObjectURL (next_url (urls w)), b)]))
    /\ (imageUrl (view w') = imageUrl (view w)
        \/ (imageUrl (view w') = Some (ObjectURL (next_url (urls w)))
            /\ (exists b, created (urls w')
                          = created (urls w) ++ [(ObjectURL (next_url (urls w)), b)])
            /\ mounted r = true /\ exists data u, load r = AwaitReadImage data u))
    /\ (feedback (view w') = feedback (view w)
        \/ (mounted r = true /\ exists data u, load r = AwaitReadImage data u))
    /\ (forall data u, s = AwaitReadImage data u ->
          mounted r = true -> resumeUrl (view w') = Some u)
    /\ (forall data u, s = AwaitReadImage data u ->
          u = ObjectURL (next_url (urls w))).
Proof.
  unfold next_part. destruct r as [[|] captured [| data | data u |]];
    cbn [load mounted captured_imageUrl]; unfold_parts;
    cbn -[makeBlobFromPossible js].
  all: repeat part_case.
  all: eexists _, _; (split; [reflexivity|]); cbn -[js];
    repeat split; auto; try discriminate; try congruence;
    try (intros ? ? [= <- <-]; auto; fail);
    try (right; repeat split; eauto; fail).
Qed.

Lemma view_inv_initial : view_inv initial_world.
Proof.
  unfold view_inv. cbn. split; [|split; [|split; [|split]]].
  - intros j r Hj. now rewrite lookup_nil in Hj.
  - discriminate.
  - discriminate.
  - intros j r data u Hj. now rewrite lookup_nil in Hj.
  - intros [?|?]; [congruence|discriminate].
Qed.

(** The effect runs: a new run, mounted, at the end of the runs; the view
    and the registry are as they were. *)
Lemma run_effect_world id w :
  exists w',
    run_effect id w = (Normal tt, w')
    /\ runs w' = runs w ++ [{| mounted := true; captured_imageUrl := imageUrl (view w);
                               load := AwaitKvGet |}]
    /\ life w' = Active (List.length (runs w))
    /\ view w' = view w /\ urls w' = urls w /\ createdUrls w' = createdUrls w.
Proof. eexists. split; [reflexivity|]. cbn. auto 10. Qed.

Lemma view_inv_new_run w w' r0 :
  view_inv w ->
  (forall j r, runs w !! j = Some r -> mounted r = false) ->
  runs w' = runs w ++ [r0] -> load r0 = AwaitKvGet ->
  life w' = Active (List.length (runs w)) ->
  view w' = view w -> created (urls w') = created (urls w) ->
  view_inv w'.
Proof.
  intros (_ & Hb1 & Hb2 & _ & Hd) Hunm Hruns Hl0 Hlife Hview Hcr.
  unfold view_inv. rewrite Hruns, Hlife, Hview, Hcr.
  split; [|split; [assumption|split; [assumption|split; [|assumption]]]].
  - intros j r Hj Hm. apply lookup_app_Some in Hj as [Hj|[Hlen Hj]].
    + apply Hunm in Hj. congruence.
    + apply list_lookup_singleton_Some in Hj as [Hj _]. f_equal. lia.
  - intros j r data u Hj Hl Hm. apply lookup_app_Some in Hj as [Hj|[Hlen Hj]].
    + apply Hunm in Hj. congruence.
    + apply list_lookup_singleton_Some in Hj as [_ <-]. congruence.
Qed.

Lemma view_inv_step w e : view_inv w -> view_inv (step w e).
Proof.
  intros Hinv. pose proof Hinv as (Ha & Hb1 & Hb2 & Hc & Hd).
  unfold step, react. destruct e as [id | i settled | ].
  - destruct (life w) as [|i|] eqn:Hlife; [| |exact Hinv].
    + destruct (run_effect_world id w) as (w' & -> & Hruns & Hl & Hv & Hu & _).
      cbn [snd]. eapply view_inv_new_run; eauto; [|now rewrite Hu].
      intros j r Hj. destruct (mounted r) eqn:Hm; [|reflexivity].
      specialize (Ha j r Hj Hm). congruence.
    + unfold bind. rewrite cleanup_spec.
      match goal with |- context [run_effect id ?w0] =>
        destruct (run_effect_world id w0) as (w' & -> & Hruns & Hl & Hv & Hu & _) end.
      cbn [snd]. cbn in Hruns, Hl, Hv, Hu.
      assert (Hw0 : view_inv
                      (set_runs (alter (set_mounted false) i (runs w))
                         (set_life NotMounted w))).
      { unfold view_inv. cbn. repeat split; try assumption.
        - intros j r Hj Hm. exfalso. rewrite list_lookup_alter in Hj.
          case_decide.
          + subst j. destruct (runs w !! i); [|discriminate].
            injection Hj as <-. discriminate Hm.
          + specialize (Ha j r Hj Hm). congruence.
        - intros j r data u Hj Hl' Hm. rewrite list_lookup_alter in Hj.
          case_decide.
          + subst j. destruct (runs w !! i); [|discriminate].
            injection Hj as <-. discriminate Hm.
          + eapply Hc; eauto. }
      eapply (view_inv_new_run _ _ _ Hw0); cbn; eauto.
      * intros j r Hj. rewrite list_lookup_alter in Hj. case_decide.
        -- subst j. destruct (runs w !! i); [|discriminate].
           now injection Hj as <-.
        -- destruct (mounted r) eqn:Hm; [|reflexivity].
           specialize (Ha j r Hj Hm). congruence.
      * now rewrite Hu.
  - unfold resume_load. destruct (runs w !! i) as [r|] eqn:Hr; [|exact Hinv].
    destruct (next_part_view r settled w)
      as (s & w' & Hrun & Hunm & Hres & Himg & Hfb & Hs & _).
    destruct (next_part_handles r settled w)
      as (s' & w'' & new & Hrun' & Hruns & Hlife & _ & Hcr & _).
    rewrite Hrun in Hrun'. injection Hrun' as <- <-. rewrite Hrun. cbn [snd].
    assert (Hsub : forall u, In u (List.map fst (created (urls w))) ->
                             In u (List.map fst (created (urls w')))).
    { intros u Hu. rewrite Hcr, map_app. apply in_or_app. now left. }
    assert (Hres' : resumeUrl (view w) <> None -> resumeUrl (view w') <> None).
    { destruct Hres as [->|[-> _]]; [auto|discriminate]. }
    unfold view_inv. cbn. rewrite Hruns, Hlife.
    split; [|split; [|split; [|split]]].
    + intros j r' Hj Hm. rewrite list_lookup_alter in Hj. case_decide.
      * subst j. rewrite Hr in Hj. injection Hj as <-. eapply Ha; eauto.
      * eapply Ha; eauto.
    + intros u Hu. destruct Hres as [E|[E [b Hb]]].
      * apply Hsub, Hb1. congruence.
      * rewrite E in Hu. injection Hu as <-. rewrite Hb, map_app.
        apply in_or_app. right. now left.
    + intros u Hu. destruct Himg as [E|[E [[b Hb] _]]].
      * apply Hsub, Hb2. congruence.
      * rewrite E in Hu. injection Hu as <-. rewrite Hb, map_app.
        apply in_or_app. right. now left.
    + intros j r' data u Hj Hl Hm. rewrite list_lookup_alter in Hj. case_decide.
      * subst j. rewrite Hr in Hj. injection Hj as <-. cbn in Hl, Hm.
        rewrite (Hs _ _ Hl Hm). discriminate.
      * apply Hres'. eapply Hc; eauto.
    + intros Hor. apply Hres'.
      destruct Himg as [Ei|[_ [_ [Hm [data [u Hl]]]]]]; [|eapply Hc; eauto].
      destruct Hfb as [Ef|[Hm [data [u Hl]]]]; [|eapply Hc; eauto].
      apply Hd. now rewrite <- Ei, <- Ef.
  - destruct (life w) as [|i|] eqn:Hlife.
    + cbn. unfold view_inv. cbn. repeat split; try assumption.
      intros j r Hj Hm. specialize (Ha j r Hj Hm). congruence.
    + unfold bind. rewrite cleanup_spec. unfold modify. cbn [snd].
      unfold view_inv. cbn. repeat split; try assumption.
      * intros j r Hj Hm. exfalso. rewrite list_lookup_alter in Hj. case_decide.
        -- subst j. destruct (runs w !! i); [|discriminate].
           injection Hj as <-. discriminate Hm.
        -- specialize (Ha j r Hj Hm). congruence.
      * intros j r data u Hj Hl Hm. rewrite list_lookup_alter in Hj. case_decide.
        -- subst j. destruct (runs w !! i); [|discriminate].
           injection Hj as <-. discriminate Hm.
        -- eapply Hc; eauto.
    + cbn. unfold view_inv. cbn. repeat split; assumption.
Qed.

Lemma view_inv_run w es : view_inv w -> view_inv (run_events w es).
Proof.
  unfold run_events. revert w; induction es as [|e es IH]; intros w Hw; [exact Hw|].
  apply IH. now apply view_inv_step.
Qed.

End ViewFacts.

Section LoadOutcomes.
Context `{Platform}.

Lemma lookup_alter_same (i : nat) (r : effect_run) (f : effect_run -> effect_run)
    (l : list effect_run) :
  l !! i = Some r -> alter f i l !! i = Some (f r).
Proof.
  intros Hr. rewrite list_lookup_alter, Hr. case_decide; [reflexivity|congruence].
Qed.

Lemma load_after_resume_falsy mounted data raw w :
  ToBoolean raw = false ->
  load_after_resume mounted data (Normal raw) w
  = (Normal Returned,
     if mounted
     then set_view (with_error (Some (js "Failed to read resume PDF from fs.")) (view w)) w
     else w).
Proof.
  intros Hv. unfold load_after_resume, try_catch, bind, eval. rewrite Hv.
  destruct mounted; reflexivity.
Qed.

Lemma load_after_resume_unnormalised mounted data raw w :
  ToBoolean raw = true ->
  normalize raw (js "application/pdf") = None ->
  exists log,
    load_after_resume mounted data (Normal raw) w
    = (Normal Returned,
       let w1 := set_console (console w ++ log) w in
       if mounted
       then set_view
              (with_error (Some (js "Could not create PDF blob from resume data."))
                 (view w)) w1
       else w1).
Proof.
  intros Hv Hn. destruct (makeBlobFromPossible_None _ _ w Hn) as (log & Hrun).
  exists log. unfold load_after_resume, try_catch, bind, eval. rewrite Hv.
  cbn [negb]. rewrite Hrun. destruct mounted; reflexivity.
Qed.

(** A promise that is rejected, at any of the three [await]s. *)
Lemma next_part_Throw r e w :
  load r <> Returned ->
  next_part r (Throw e) w
  = (Normal Returned,
     let w1 := set_console (console w ++ [console_error (js "Error loading resume:") e]) w in
     if mounted r then set_view (with_error (Some (error_text e)) (view w)) w1 else w1).
Proof.
  intros Hl. unfold next_part.
  destruct (load r); try congruence; destruct (mounted r); reflexivity.
Qed.

Lemma load_after_kv_unparsable mounted v e w :
  ToBoolean v = true ->
  JSON_parse v = Throw e ->
  load_after_kv mounted (Normal v) w
  = (Normal Returned,
     let w1 := set_console (console w ++ [console_error (js "Error loading resume:") e]) w in
     if mounted then set_view (with_error (Some (error_text e)) (view w)) w1 else w1).
Proof.
  intros Hv Hp. unfold load_after_kv, try_catch, bind, eval. rewrite Hv, Hp.
  destruct mounted; reflexivity.
Qed.

(** The image was read and normalised: lines 100 to 117 in a mounted run. *)
Lemma load_after_image_ok captured data u raw blob fb w :
  ToBoolean raw = true ->
  normalize raw (js "image/png") = Some blob ->
  Get data (js "feedback") = Normal fb ->
  exists w',
    load_after_image true captured data u (Normal raw) w = (Normal Returned, w')
    /\ view w' = {| imageUrl := Some (ObjectURL (next_url (urls w)));
                   resumeUrl := resumeUrl (view w);
                   feedback := or_else fb JNull; error := None |}
    /\ created (urls w') = created (urls w) ++ [(ObjectURL (next_url (urls w)), blob)]
    /\ createdUrls w' = createdUrls w ++ [ObjectURL (next_url (urls w))]
    /\ requests w' = requests w
    /\ runs w' = runs w.
Proof.
  intros Hv Hn Hfb. unfold load_after_image, image_blob, try_catch, bind, eval.
  rewrite Hv, (makeBlobFromPossible_Some _ _ _ _ Hn).
  unfold URL_createObjectURL, pushUrl, when, setImageUrl, setFeedback, setError,
    console_push, modify, ret.
  rewrite Hfb. eexists. split; [reflexivity|]. cbn. auto 10.
Qed.

End LoadOutcomes.

(** X7. When the read of the PDF gives nothing, the load is over: in a
    mounted run the error is "Failed to read resume PDF from fs."; no URL
    is created, the image is not asked for, and the feedback, the URLs of
    the view and the console are as they were. *)
Theorem missing_pdf_ends_the_load `{Platform}
    (w : world) (i : nat) (r : effect_run) (data raw : jsval) :
  runs w !! i = Some r ->
  load r = AwaitReadResume data ->
  ToBoolean raw = false ->
  let w' := step w (Settle i (Normal raw)) in
  ends_on_error i r (js "Failed to read resume PDF from fs.") w w'
  /\ console w' = console w.
Proof.
  intros Hr Hl Hv w'. subst w'.
  erewrite step_Settle; [| eassumption |].
  2:{ unfold next_part. rewrite Hl. now apply load_after_resume_falsy. }
  pose proof (lookup_alter_same i r (set_load Returned) _ Hr).
  unfold ends_on_error. destruct (mounted r); cbn; auto 10.
Qed.

Lemma missing_pdf_ends_the_load_witness :
  let P := Sample.platform in
  let w := run_events initial_world
             [RunEffect (Some (js "1")); Settle 0 (Normal (JString Sample.record_text));
              Settle 0 (Normal JNull)] in
  error (view w) = Some (js "Failed to read resume PDF from fs.")
  /\ created (urls w) = []
  /\ requests w = [kv_get (js "resume:1"); fs_read (JString (js "r/1.pdf"))].
Proof.
  cbv zeta.
  destruct (@missing_pdf_ends_the_load Sample.platform
              (@run_events Sample.platform initial_world
                 [RunEffect (Some (js "1"));
                  Settle 0 (Normal (JString Sample.record_text))])
              0%nat
              {| mounted := true; captured_imageUrl := None;
                 load := AwaitReadResume (JObject 1) |}
              (JObject 1) JNull eq_refl eq_refl eq_refl)
    as ((Hv & Hu & _ & Hq & _) & _).
  apply (f_equal error) in Hv. apply (f_equal created) in Hu.
  vm_compute in Hv, Hu, Hq. vm_compute.
  split; [exact Hv|]. split; [exact Hu | exact Hq].
Defined.

(** X8. When the PDF that was read cannot be normalised, the load is over
    in the same way, with the error "Could not create PDF blob from resume
    data."; the console gets at most the warning of the normaliser. *)
Theorem unusable_pdf_ends_the_load `{Platform}
    (w : world) (i : nat) (r : effect_run) (data raw : jsval) :
  runs w !! i = Some r ->
  load r = AwaitReadResume data ->
  ToBoolean raw = true ->
  normalize raw (js "application/pdf") = None ->
  let w' := step w (Settle i (Normal raw)) in
  ends_on_error i r (js "Could not create PDF blob from resume data.") w w'
  /\ exists log, console w' = console w ++ log /\ (List.length log <= 1)%nat.
Proof.
  intros Hr Hl Hv Hn w'. subst w'.
  destruct (makeBlobFromPossible_normalize raw (js "application/pdf") w)
    as (log & Hrun & Hlog).
  rewrite Hn in Hrun.
  pose proof (lookup_alter_same i r (set_load Returned) _ Hr) as Hi.
  assert (Hlen : (List.length log <= 1)%nat)
    by (destruct Hlog as [->|[_ [e ->]]]; cbn; lia).
  unfold ends_on_error. destruct (mounted r) eqn:Hm.
  - erewrite step_Settle; [| eassumption |].
    2:{ unfold next_part. rewrite Hl, Hm.
        unfold load_after_resume, try_catch, bind, eval. rewrite Hv. cbn [negb].
        rewrite Hrun. reflexivity. }
    cbn. eauto 10.
  - erewrite step_Settle; [| eassumption |].
    2:{ unfold next_part. rewrite Hl, Hm.
        unfold load_after_resume, try_catch, bind, eval. rewrite Hv. cbn [negb].
        rewrite Hrun. reflexivity. }
    cbn. eauto 10.
Qed.

Lemma unusable_pdf_ends_the_load_witness :
  let P := Sample.platform in
  let w := run_events initial_world
             [RunEffect (Some (js "1")); Settle 0 (Normal (JString Sample.record_text));
              Settle 0 (Normal (JString (js "not base64!")))] in
  error (view w) = Some (js "Could not create PDF blob from resume data.")
  /\ created (urls w) = []
  /\ requests w = [kv_get (js "resume:1"); fs_read (JString (js "r/1.pdf"))].
Proof.
  cbv zeta.
  destruct (@unusable_pdf_ends_the_load Sample.platform
              (@run_events Sample.platform initial_world
                 [RunEffect (Some (js "1"));
                  Settle 0 (Normal (JString Sample.record_text))])
              0%nat
              {| mounted := true; captured_imageUrl := None;
                 load := AwaitReadResume (JObject 1) |}
              (JObject 1) (JString (js "not base64!")) eq_refl eq_refl eq_refl eq_refl)
    as ((Hv & Hu & _ & Hq & _) & _).
  apply (f_equal error) in Hv. apply (f_equal created) in Hu.
  vm_compute in Hv, Hu, Hq. vm_compute.
  split; [exact Hv|]. split; [exact Hu | exact Hq].
Defined.

(** X9. A promise that is rejected, at any of the three [await]s, ends the
    load in the [catch]: the error is logged, and in a mounted run the
    error of the view is the message of what was thrown (or its text, when
    it has no message); no URL is created and no request is sent. *)
Theorem rejected_promise_ends_the_load `{Platform}
    (w : world) (i : nat) (r : effect_run) (e : thrown) :
  runs w !! i = Some r ->
  load r <> Returned ->
  let w' := step w (Settle i (Throw e)) in
  ends_on_error i r (error_text e) w w'
  /\ console w' = console w ++ [console_error (js "Error loading resume:") e].
Proof.
  intros Hr Hl w'. subst w'.
  erewrite step_Settle; [| eassumption | now apply next_part_Throw].
  pose proof (lookup_alter_same i r (set_load Returned) _ Hr).
  unfold ends_on_error. destruct (mounted r); cbn; auto 10.
Qed.

Lemma rejected_promise_ends_the_load_witness :
  let P := Sample.platform in
  let w := run_events initial_world
             [RunEffect (Some (js "1"));
              Settle 0 (Throw (Sample.TypeError "store is down"))] in
  error (view w) = Some (js "store is down")
  /\ created (urls w) = []
  /\ requests w = [kv_get (js "resume:1")].
Proof.
  cbv zeta.
  destruct (@rejected_promise_ends_the_load Sample.platform
              (@step Sample.platform initial_world (RunEffect (Some (js "1")))) 0%nat
              {| mounted := true; captured_imageUrl := None; load := AwaitKvGet |}
              (Sample.TypeError "store is down") eq_refl)
    as ((Hv & Hu & _ & Hq & _) & _); [discriminate|].
  apply (f_equal error) in Hv. apply (f_equal created) in Hu.
  vm_compute in Hv, Hu, Hq. vm_compute.
  split; [exact Hv|]. split; [exact Hu | exact Hq].
Defined.

(** X10. A record that [JSON.parse] rejects ends the load in the same way:
    the error of the view is the message of the parse error, and no file is
    asked for. *)
Theorem unparsable_record_ends_the_load `{Platform}
    (w : world) (i : nat) (r : effect_run) (v : jsval) (e : thrown) :
  runs w !! i = Some r ->
  load r = AwaitKvGet ->
  ToBoolean v = true ->
  JSON_parse v = Throw e ->
  let w' := step w (Settle i (Normal v)) in
  ends_on_error i r (error_text e) w w'
  /\ console w' = console w ++ [console_error (js "Error loading resume:") e].
Proof.
  intros Hr Hl Hv Hp w'. subst w'.
  erewrite step_Settle; [| eassumption |].
  2:{ unfold next_part. rewrite Hl. eapply load_after_kv_unparsable; eassumption. }
  pose proof (lookup_alter_same i r (set_load Returned) _ Hr).
  unfold ends_on_error. destruct (mounted r); cbn; auto 10.
Qed.

Lemma unparsable_record_ends_the_load_witness :
  let P := Sample.platform in
  let w := run_events initial_world
             [RunEffect (Some (js "1")); Settle 0 (Normal (JString (js "{oops")))] in
  error (view w) = Some (js "Unexpected token")
  /\ created (urls w) = []
  /\ requests w = [kv_get (js "resume:1")].
Proof.
  cbv zeta.
  destruct (@unparsable_record_ends_the_load Sample.platform
              (@step Sample.platform initial_world (RunEffect (Some (js "1")))) 0%nat
              {| mounted := true; captured_imageUrl := None; load := AwaitKvGet |}
              (JString (js "{oops")) (Sample.SyntaxError "Unexpected token")
              eq_refl eq_refl eq_refl eq_refl)
    as ((Hv & Hu & _ & Hq & _) & _).
  apply (f_equal error) in Hv. apply (f_equal created) in Hu.
  vm_compute in Hv, Hu, Hq. vm_compute.
  split; [exact Hv|]. split; [exact Hu | exact Hq].
Defined.

(** X11. The successful load of a view just mounted: with the record found
    and both files read and normalised, the three requests are sent in
    order, two URLs are created, for the PDF and then for the image, both
    are on [createdUrls.current] and in the state of the view, and the
    error is [null].  The view then renders the image inside the link to
    the PDF and no error line; it renders the feedback sections when the
    feedback has an [ATS] whose [score] and [tips] can be read, and the
    scanning image when the record has no feedback. *)
Theorem successful_load `{Platform} (id : option jsstring)
    (kvText data resumePath imagePath fb pdfRaw imageRaw : jsval)
    (pdfBlob imgBlob : Blob) :
  ToBoolean kvText = true ->
  JSON_parse kvText = Normal data ->
  Get data (js "resumePath") = Normal resumePath ->
  Get data (js "imagePath") = Normal imagePath ->
  Get data (js "feedback") = Normal fb ->
  ToBoolean pdfRaw = true ->
  normalize pdfRaw (js "application/pdf") = Some pdfBlob ->
  ToBoolean imageRaw = true ->
  normalize imageRaw (js "image/png") = Some imgBlob ->
  let w := run_events initial_world
             [RunEffect id; Settle 0 (Normal kvText); Settle 0 (Normal pdfRaw);
              Settle 0 (Normal imageRaw)] in
  requests w = [kv_get (resume_key id); fs_read resumePath; fs_read imagePath]
  /\ created (urls w) = [(ObjectURL 0, pdfBlob); (ObjectURL 1, imgBlob)]
  /\ createdUrls w = [ObjectURL 0; ObjectURL 1]
  /\ view w = {| imageUrl := Some (ObjectURL 1); resumeUrl := Some (ObjectURL 0);
                 feedback := or_else fb JNull; error := None |}
  /\ (ToBoolean fb = false ->
      render (view w)
      = Normal {| pdf_link := Some (ObjectURL 0); preview_image := Some (ObjectURL 1);
                  error_line := None; feedback_sections := None |})
  /\ (forall ats score tips,
        ToBoolean fb = true ->
        property fb (js "ATS") = Normal ats ->
        property ats (js "score") = Normal score ->
        property ats (js "tips") = Normal tips ->
        render (view w)
        = Normal {| pdf_link := Some (ObjectURL 0);
                    preview_image := Some (ObjectURL 1);
                    error_line := None;
                    feedback_sections :=
                      Some {| Summary_feedback := fb;
                              ATS_score := or_else score (JNumber (S754_zero false));
                              ATS_suggestions :=
                                if ToBoolean tips then Tips tips else EmptyArray;
                              Details_feedback := fb |} |}).
Proof.
  intros Hkv Hparse Hrp Hip Hfb Hpdf Hblob Himg Hiblob.
  unfold run_events. cbn [fold_left].
  set (w1 := step initial_world (RunEffect id)).
  assert (Hw1 : runs w1 !! 0%nat
                = Some {| mounted := true; captured_imageUrl := None; load := AwaitKvGet |})
    by reflexivity.
  erewrite (step_Settle w1); [| exact Hw1 |].
  2:{ unfold next_part. cbn [load mounted]. eapply load_after_kv_found; eassumption. }
  match goal with |- context [step ?w (Settle 0 (Normal pdfRaw))] => set (w2 := w) end.
  assert (Hw2 : runs w2 !! 0%nat
                = Some {| mounted := true; captured_imageUrl := None;
                          load := AwaitReadResume data |})
    by reflexivity.
  erewrite (step_Settle w2); [| exact Hw2 |].
  2:{ unfold next_part. cbn [load mounted]. eapply load_after_resume_ok; eassumption. }
  match goal with |- context [step ?w (Settle 0 (Normal imageRaw))] => set (w3 := w) end.
  assert (Hw3 : runs w3 !! 0%nat
                = Some {| mounted := true; captured_imageUrl := None;
                          load := AwaitReadImage data (ObjectURL 0) |})
    by reflexivity.
  destruct (load_after_image_ok None data (ObjectURL 0) imageRaw imgBlob fb w3
              Himg Hiblob Hfb)
    as (w4 & Hrun & Hview & Hcr & Hcu & Hrq & _).
  erewrite (step_Settle w3); [| exact Hw3 | exact Hrun].
  cbn [view urls requests createdUrls set_runs]. rewrite Hview, Hcr, Hcu, Hrq.
  split; [reflexivity|]. split; [reflexivity|]. split; [reflexivity|].
  split; [reflexivity|]. split.
  - intros Hf. rewrite render_no_feedback; [reflexivity|].
    cbn. unfold or_else. now rewrite Hf.
  - intros ats score tips Hf Hats Hscore Htips.
    assert (E : or_else fb JNull = fb) by (unfold or_else; now rewrite Hf).
    rewrite (render_with_ATS _ ats score tips); cbn [feedback]; rewrite ?E;
      try assumption. reflexivity.
Qed.

Lemma successful_load_witness :
  let P := Sample.platform in
  let w := run_events initial_world
             [RunEffect (Some (js "1")); Settle 0 (Normal (JString Sample.record_text));
              Settle 0 (Normal (JArrayBuffer Sample.pdf_bytes));
              Settle 0 (Normal (JString (js "data:image/png;base64,UE5H")))] in
  requests w = [kv_get (js "resume:1"); fs_read (JString (js "r/1.pdf"));
                fs_read (JString (js "r/1.png"))]
  /\ List.map fst (created (urls w)) = [ObjectURL 0; ObjectURL 1]
  /\ render (view w)
     = Normal {| pdf_link := Some (ObjectURL 0); preview_image := Some (ObjectURL 1);
                 error_line := None;
                 feedback_sections :=
                   Some {| Summary_feedback := JObject 2;
                           ATS_score := JNumber (S754_finite false 5 4);
                           ATS_suggestions := Tips (JObject 6);
                           Details_feedback := JObject 2 |} |}.
Proof.
  cbv zeta.
  destruct (@successful_load Sample.platform (Some (js "1"))
              (JString Sample.record_text) (JObject 1) (JString (js "r/1.pdf"))
              (JString (js "r/1.png")) (JObject 2) (JArrayBuffer Sample.pdf_bytes)
              (JString (js "data:image/png;base64,UE5H"))
              {| blob_bytes := Sample.pdf_bytes; blob_type := js "application/pdf" |}
              {| blob_bytes := Sample.png_bytes; blob_type := js "image/png" |}
              eq_refl eq_refl eq_refl eq_refl eq_refl eq_refl eq_refl eq_refl eq_refl)
    as (Hq & Hc & _ & _ & _ & Hrender).
  specialize (Hrender (JObject 5) (JNumber (S754_finite false 5 4)) (JObject 6)
                eq_refl eq_refl eq_refl eq_refl).
  apply (f_equal (List.map fst)) in Hc.
  vm_compute in Hq, Hc, Hrender. vm_compute.
  split; [exact Hq|]. split; [exact Hc | exact Hrender].
Defined.

(** The states the view reaches from its mount. *)
Lemma reachable_inv `{Platform} (es : list event) :
  handles_inv (run_events initial_world es) /\ view_inv (run_events initial_world es).
Proof.
  split; [apply handles_inv_run, handles_inv_initial
         | apply view_inv_run, view_inv_initial].
Qed.

(** X12. However the view got there, at most one run of the effect is
    mounted: the one whose clean-up React still holds. *)
Theorem only_the_active_run_is_mounted `{Platform} (es : list event)
    (j : nat) (r : effect_run) :
  let w := run_events initial_world es in
  runs w !! j = Some r ->
  mounted r = true ->
  life w = Active j
  /\ forall j' r', runs w !! j' = Some r' -> mounted r' = true -> j' = j.
Proof.
  intros w Hj Hm. destruct (reachable_inv es) as (_ & Ha & _). fold w in Ha.
  split; [now apply (Ha j r)|].
  intros j' r' Hj' Hm'. pose proof (Ha j r Hj Hm) as E.
  pose proof (Ha j' r' Hj' Hm') as E'. congruence.
Qed.

Lemma only_the_active_run_is_mounted_witness :
  let P := Sample.platform in
  let w := run_events initial_world
             [RunEffect (Some (js "1")); RunEffect (Some (js "2"))] in
  life w = Active 1
  /\ runs w !! 0%nat
     = Some {| mounted := false; captured_imageUrl := None; load := AwaitKvGet |}.
Proof.
  cbv zeta.
  pose proof (proj1 (@only_the_active_run_is_mounted Sample.platform
                  [RunEffect (Some (js "1")); RunEffect (Some (js "2"))] 1%nat
                  {| mounted := true; captured_imageUrl := None; load := AwaitKvGet |}
                  eq_refl eq_refl)) as Hlife.
  vm_compute in Hlife. vm_compute. split; [exact Hlife | reflexivity].
Defined.

(** X13. The load of a run that is not the active one (it was superseded
    by a new run of the effect, or the view is unmounted) never changes the
    state of the view, whatever its promises settle to. *)
Theorem superseded_load_leaves_the_view `{Platform} (es : list event)
    (i : nat) (settled : completion jsval) :
  let w := run_events initial_world es in
  life w <> Active i ->
  view (step w (Settle i settled)) = view w.
Proof.
  intros w Hlife. destruct (reachable_inv es) as (_ & Ha & _). fold w in Ha.
  unfold step, react, resume_load.
  destruct (runs w !! i) as [r|] eqn:Hr; [|reflexivity].
  assert (Hm : mounted r = false).
  { destruct (mounted r) eqn:Hm; [|reflexivity]. now specialize (Ha i r Hr Hm). }
  destruct (next_part_view r settled w) as (s & w' & -> & Hunm & _).
  cbn. now apply Hunm.
Qed.

(** The view goes from resume 1 to resume 2 while the first load waits for
    its PDF; the PDF of resume 1 then arrives. *)
Lemma superseded_load_leaves_the_view_witness :
  let P := Sample.platform in
  let w := run_events initial_world
             [RunEffect (Some (js "1")); Settle 0 (Normal (JString Sample.record_text));
              RunEffect (Some (js "2"))] in
  let w' := step w (Settle 0 (Normal (JArrayBuffer Sample.pdf_bytes))) in
  resumeUrl (view w') = None
  /\ List.map fst (created (urls w')) = [ObjectURL 0].
Proof.
  cbv zeta.
  assert (Hne : life (@run_events Sample.platform initial_world
                        [RunEffect (Some (js "1"));
                         Settle 0 (Normal (JString Sample.record_text));
                         RunEffect (Some (js "2"))]) <> Active 0)
    by (vm_compute; discriminate).
  pose proof (f_equal resumeUrl
                (@superseded_load_leaves_the_view Sample.platform
                   [RunEffect (Some (js "1"));
                    Settle 0 (Normal (JString Sample.record_text));
                    RunEffect (Some (js "2"))] 0%nat
                   (Normal (JArrayBuffer Sample.pdf_bytes)) Hne)) as Hview.
  vm_compute in Hview. vm_compute. split; [exact Hview | reflexivity].
Defined.

(** X14. However the view got there, the URLs the registry handed out are,
    in the order of their creation, those [revokeObjectURL] was called on
    followed by those on [createdUrls.current], and they are all distinct:
    no URL is revoked twice, and none that is still on the list has been
    revoked. *)
Theorem urls_are_revoked_at_most_once `{Platform} (es : list event) :
  let w := run_events initial_world es in
  List.map fst (created (urls w)) = revoke_calls (urls w) ++ createdUrls w
  /\ NoDup (revoke_calls (urls w) ++ createdUrls w).
Proof.
  intros w. destruct (reachable_inv es) as (Hh & _). fold w in Hh.
  split; [apply Hh | now apply revoked_at_most_once].
Qed.

(** X15. The clean-up, at the unmount or before the effect runs again,
    ends normally even when [revokeObjectURL] throws; it calls
    [revokeObjectURL] once on each URL of [createdUrls.current] and empties
    the list, so that after it every URL created so far has been revoked
    exactly once. *)
Theorem cleanup_revokes_every_pending_url `{Platform} (es : list event)
    (i : nat) (e : event) :
  let w := run_events initial_world es in
  life w = Active i ->
  e = Unmount \/ (exists id, e = RunEffect id) ->
  let w' := step w e in
  fst (react e w) = Normal tt
  /\ revoke_calls (urls w') = revoke_calls (urls w) ++ createdUrls w
  /\ createdUrls w' = []
  /\ revoke_calls (urls w') = List.map fst (created (urls w'))
  /\ NoDup (revoke_calls (urls w')).
Proof.
  intros w Hlife He w'. subst w'.
  destruct (reachable_inv es) as (Hh & _). fold w in Hh.
  pose proof (handles_inv_step w e Hh) as Hh'.
  pose proof (revoked_at_most_once _ Hh') as Hnd.
  destruct Hh' as (Hsplit & _). revert Hsplit Hnd.
  unfold step, react. destruct He as [->|[id ->]]; rewrite Hlife; unfold bind;
    rewrite cleanup_spec.
  - unfold modify. cbn. rewrite !app_nil_r. auto.
  - match goal with |- context [run_effect id ?w0] =>
      destruct (run_effect_handles id w0) as (w' & -> & Hu & Hc & _) end.
    cbn [fst snd]. rewrite Hu, Hc. cbn. rewrite !app_nil_r. auto.
Qed.

(** The teardown after the load of two URLs: revoking the second one
    throws. *)
Lemma cleanup_revokes_every_pending_url_witness :
  let P := Sample.platform in
  let w := run_events initial_world
             [RunEffect (Some (js "1")); Settle 0 (Normal (JString Sample.record_text));
              Settle 0 (Normal (JArrayBuffer Sample.pdf_bytes));
              Settle 0 (Normal (JString (js "data:image/png;base64,UE5H")));
              Unmount] in
  revoke_calls (urls w) = [ObjectURL 0; ObjectURL 1]
  /\ createdUrls w = []
  /\ Sample.revoke 1 <> None.
Proof.
  cbv zeta.
  destruct (@cleanup_revokes_every_pending_url Sample.platform
              [RunEffect (Some (js "1")); Settle 0 (Normal (JString Sample.record_text));
               Settle 0 (Normal (JArrayBuffer Sample.pdf_bytes));
               Settle 0 (Normal (JString (js "data:image/png;base64,UE5H")))]
              0%nat Unmount eq_refl (or_introl eq_refl))
    as (_ & Hrev & Hcu & _).
  vm_compute in Hrev, Hcu. vm_compute.
  split; [exact Hrev|]. split; [exact Hcu|]. discriminate.
Defined.

(** X16. When the effect runs again, the state of the view is not reset:
    the URLs it holds stay in it, and the clean-up has revoked them. *)
Theorem rerun_leaves_revoked_urls_in_the_view `{Platform} (es : list event)
    (i : nat) (id : option jsstring) :
  let w := run_events initial_world es in
  life w = Active i ->
  let w' := step w (RunEffect id) in
  view w' = view w
  /\ (forall u, resumeUrl (view w') = Some u -> In u (revoke_calls (urls w')))
  /\ (forall u, imageUrl (view w') = Some u -> In u (revoke_calls (urls w'))).
Proof.
  intros w Hlife w'. subst w'.
  destruct (reachable_inv es) as (Hh & _ & Hb1 & Hb2 & _). fold w in Hh, Hb1, Hb2.
  destruct Hh as (Hsplit & _). rewrite Hsplit in Hb1, Hb2.
  unfold step, react. rewrite Hlife. unfold bind. rewrite cleanup_spec.
  match goal with |- context [run_effect id ?w0] =>
    destruct (run_effect_world id w0) as (w' & -> & _ & _ & Hv & Hu & _) end.
  cbn [snd]. rewrite Hv, Hu. cbn. auto.
Qed.

(** After the load of resume 1 the view goes to resume 2: the link and the
    image it renders are the revoked URLs. *)
Lemma rerun_leaves_revoked_urls_in_the_view_witness :
  let P := Sample.platform in
  let w := run_events initial_world
             [RunEffect (Some (js "1")); Settle 0 (Normal (JString Sample.record_text));
              Settle 0 (Normal (JArrayBuffer Sample.pdf_bytes));
              Settle 0 (Normal (JString (js "data:image/png;base64,UE5H")));
              RunEffect (Some (js "2"))] in
  (exists rd, render (view w) = Normal rd /\ pdf_link rd = Some (ObjectURL 0))
  /\ In (ObjectURL 0) (revoke_calls (urls w)).
Proof.
  cbv zeta.
  destruct (@rerun_leaves_revoked_urls_in_the_view Sample.platform
              [RunEffect (Some (js "1")); Settle 0 (Normal (JString Sample.record_text));
               Settle 0 (Normal (JArrayBuffer Sample.pdf_bytes));
               Settle 0 (Normal (JString (js "data:image/png;base64,UE5H")))]
              0%nat (Some (js "2")) eq_refl)
    as (_ & Hres & _).
  specialize (Hres (ObjectURL 0)). vm_compute in Hres. vm_compute.
  split; [eexists; split; reflexivity|]. apply Hres. reflexivity.
Defined.

(** X17. However the view got there, an image URL or a feedback in its
    state come with the URL of a PDF.  So whenever [Resume] returns its
    elements, the guard of line 146 renders the image exactly when
    [imageUrl] is set, inside a link to the PDF in [resumeUrl], and
    feedback sections are rendered only in a view that holds the URL of a
    PDF. *)
Theorem image_and_feedback_come_with_a_pdf `{Platform} (es : list event) :
  let w := run_events initial_world es in
  (imageUrl (view w) <> None \/ ToBoolean (feedback (view w)) = true ->
   resumeUrl (view w) <> None)
  /\ forall rd,
       render (view w) = Normal rd ->
       preview_image rd = imageUrl (view w)
       /\ (preview_image rd <> None -> pdf_link rd = resumeUrl (view w))
       /\ (feedback_sections rd <> None -> resumeUrl (view w) <> None).
Proof.
  intros w. destruct (reachable_inv es) as (_ & _ & _ & _ & _ & Hd). fold w in Hd.
  split; [exact Hd|]. intros rd Hrd.
  destruct (render_Normal _ _ Hrd) as (Hlink & Himg & Hsec).
  rewrite Hlink, Himg. split; [|split].
  - destruct (imageUrl (view w)) as [u|] eqn:Ei; [|reflexivity].
    destruct (resumeUrl (view w)) eqn:Er; [reflexivity|].
    exfalso. apply Hd; [left; congruence | reflexivity].
  - destruct (imageUrl (view w)), (resumeUrl (view w)); congruence.
  - intros Hf. apply Hd. right. now apply Hsec.
Qed.

Lemma image_and_feedback_come_with_a_pdf_witness :
  let P := Sample.platform in
  let w := run_events initial_world
             [RunEffect (Some (js "1")); Settle 0 (Normal (JString Sample.record_text));
              Settle 0 (Normal (JArrayBuffer Sample.pdf_bytes));
              Settle 0 (Normal (JString (js "data:image/png;base64,UE5H")))] in
  exists rd,
    render (view w) = Normal rd
    /\ preview_image rd = imageUrl (view w)
    /\ pdf_link rd = resumeUrl (view w).
Proof.
  cbv zeta.
  set (rd := {| pdf_link := Some (ObjectURL 0); preview_image := Some (ObjectURL 1);
                error_line := None;
                feedback_sections :=
                  Some {| Summary_feedback := JObject 2;
                          ATS_score := JNumber (S754_finite false 5 4);
                          ATS_suggestions := Tips (JObject 6);
                          Details_feedback := JObject 2 |} |}).
  assert (Hr : @render Sample.platform
                 (view (@run_events Sample.platform initial_world
                    [RunEffect (Some (js "1"));
                     Settle 0 (Normal (JString Sample.record_text));
                     Settle 0 (Normal (JArrayBuffer Sample.pdf_bytes));
                     Settle 0 (Normal (JString (js "data:image/png;base64,UE5H")))]))
               = Normal rd) by (vm_compute; reflexivity).
  destruct (proj2 (@image_and_feedback_come_with_a_pdf Sample.platform
              [RunEffect (Some (js "1")); Settle 0 (Normal (JString Sample.record_text));
               Settle 0 (Normal (JArrayBuffer Sample.pdf_bytes));
               Settle 0 (Normal (JString (js "data:image/png;base64,UE5H")))]) rd Hr)
    as (Himg & Hlink & _).
  exists rd. split; [exact Hr|]. split; [exact Himg|].
  apply Hlink. discriminate.
Defined.

Section CapturedUrl.
Context `{Platform}.

(** The image part of a mounted load whose image is read and normalised:
    the URL it stores and the log it ends with. *)
Lemma image_part_log (w : world) (i : nat) (r : effect_run) (data raw fb : jsval)
    (u : objectURL) (blob : Blob) :
  runs w !! i = Some r ->
  load r = AwaitReadImage data u ->
  mounted r = true ->
  ToBoolean raw = true ->
  normalize raw (js "image/png") = Some blob ->
  Get data (js "feedback") = Normal fb ->
  let w' := step w (Settle i (Normal raw)) in
  imageUrl (view w') = Some (ObjectURL (next_url (urls w)))
  /\ console w' = console w ++ [console_log u (captured_imageUrl r) fb].
Proof.
  intros Hr Hl Hm Hv Hn Hfb w'. subst w'.
  erewrite step_Settle; [| eassumption |].
  2:{ unfold next_part. rewrite Hl, Hm.
      unfold load_after_image, image_blob, try_catch, bind, eval.
      rewrite Hv, (makeBlobFromPossible_Some _ _ _ _ Hn).
      unfold URL_createObjectURL, pushUrl, when, setImageUrl, setFeedback, setError,
        console_push, modify, ret.
      rewrite Hfb. reflexivity. }
  cbn. auto.
Qed.

Lemma lookup_alter_captured (f : effect_run -> effect_run) (k i : nat)
    (l : list effect_run) (r : effect_run) :
  (forall x, captured_imageUrl (f x) = captured_imageUrl x) ->
  l !! i = Some r ->
  exists r', alter f k l !! i = Some r' /\ captured_imageUrl r' = captured_imageUrl r.
Proof.
  intros Hf Hr. rewrite list_lookup_alter. case_decide.
  - subst k. rewrite Hr. exists (f r). split; [reflexivity | apply Hf].
  - exists r. auto.
Qed.

(** No event changes what a run has captured, nor the URLs already handed
    out. *)
Lemma step_keeps_run w e i r :
  runs w !! i = Some r ->
  exists r', runs (step w e) !! i = Some r'
             /\ captured_imageUrl r' = captured_imageUrl r.
Proof.
  intros Hr. unfold step, react. destruct e as [id | k settled | ].
  - destruct (life w) as [|j|]; [| | eauto].
    + destruct (run_effect_world id w) as (w' & -> & Hruns & _).
      cbn [snd]. rewrite Hruns. exists r. split; [|reflexivity].
      now apply lookup_app_l_Some.
    + unfold bind. rewrite cleanup_spec.
      match goal with |- context [run_effect id ?w0] =>
        destruct (run_effect_world id w0) as (w' & -> & Hruns & _) end.
      cbn [snd]. rewrite Hruns. cbn.
      destruct (lookup_alter_captured (set_mounted false) j i (runs w) r
                  (fun _ => eq_refl) Hr) as (r' & Hr' & Hc).
      exists r'. split; [now apply lookup_app_l_Some | exact Hc].
  - unfold resume_load. destruct (runs w !! k) as [rk|]; [|eauto].
    destruct (next_part_handles rk settled w) as (s & w' & new & -> & Hruns & _).
    cbn. rewrite Hruns.
    now apply lookup_alter_captured.
  - destruct (life w) as [|j|]; [cbn; eauto | | cbn; eauto].
    unfold bind. rewrite cleanup_spec. unfold modify. cbn.
    now apply lookup_alter_captured.
Qed.

Lemma run_keeps_run w es i r :
  runs w !! i = Some r ->
  exists r', runs (run_events w es) !! i = Some r'
             /\ captured_imageUrl r' = captured_imageUrl r.
Proof.
  unfold run_events. revert w r; induction es as [|e es IH]; intros w r Hr; [eauto|].
  cbn [fold_left]. destruct (step_keeps_run w e i r Hr) as (r1 & Hr1 & E1).
  destruct (IH _ _ Hr1) as (r2 & Hr2 & E2). exists r2. split; [exact Hr2 | congruence].
Qed.

Lemma step_keeps_created w e u :
  In u (List.map fst (created (urls w))) ->
  In u (List.map fst (created (urls (step w e)))).
Proof.
  intros Hu. unfold step, react. destruct e as [id | k settled | ].
  - destruct (life w) as [|j|]; [| | exact Hu].
    + destruct (run_effect_world id w) as (w' & -> & _ & _ & _ & Hurls & _).
      cbn [snd]. now rewrite Hurls.
    + unfold bind. rewrite cleanup_spec.
      match goal with |- context [run_effect id ?w0] =>
        destruct (run_effect_world id w0) as (w' & -> & _ & _ & _ & Hurls & _) end.
      cbn [snd]. now rewrite Hurls.
  - unfold resume_load. destruct (runs w !! k) as [rk|]; [|exact Hu].
    destruct (next_part_handles rk settled w)
      as (s & w' & new & -> & _ & _ & _ & Hcr & _).
    cbn. rewrite Hcr, map_app. apply in_or_app. now left.
  - destruct (life w) as [|j|]; [exact Hu | | exact Hu].
    unfold bind. rewrite cleanup_spec. unfold modify. cbn. exact Hu.
Qed.

Lemma run_keeps_created w es u :
  In u (List.map fst (created (urls w))) ->
  In u (List.map fst (created (urls (run_events w es)))).
Proof.
  unfold run_events. revert w; induction es as [|e es IH]; intros w Hu; [exact Hu|].
  cbn [fold_left]. apply IH. now apply step_keeps_created.
Qed.

(** The next URL of the registry has not been handed out. *)
Lemma next_url_is_fresh w :
  handles_inv w ->
  ~ In (ObjectURL (next_url (urls w))) (List.map fst (created (urls w))).
Proof.
  intros (_ & Hnum & Hnext). rewrite Hnum, Hnext. intros Hin.
  apply in_map_iff in Hin as (k & [= Hk] & Hseq).
  apply Nat2N.inj in Hk. apply in_seq in Hseq. lia.
Qed.

(** What a run has captured is the image URL of the view at the time the
    effect ran. *)
Lemma run_effect_captures w id :
  life w <> Unmounted ->
  exists r, runs (step w (RunEffect id)) !! List.length (runs w) = Some r
            /\ captured_imageUrl r = imageUrl (view w).
Proof.
  intros Hlife. unfold step, react. destruct (life w) as [|j|]; [| |congruence].
  - destruct (run_effect_world id w) as (w' & -> & Hruns & _).
    cbn [snd]. rewrite Hruns. eexists.
    split; [rewrite lookup_app_r by lia; rewrite Nat.sub_diag; reflexivity
           | reflexivity].
  - unfold bind. rewrite cleanup_spec.
    match goal with |- context [run_effect id ?w0] =>
      destruct (run_effect_world id w0) as (w' & -> & Hruns & _) end.
    cbn [snd]. rewrite Hruns. cbn. eexists.
    split; [rewrite lookup_app_r by (rewrite length_alter; lia);
            rewrite length_alter, Nat.sub_diag; reflexivity
           | reflexivity].
Qed.

End CapturedUrl.

(** X18. The log that ends a load reports the image URL the view had when
    the effect of that load ran, which is never the URL the load has just
    created and stored: in a run of the effect started in any state the
    view can reach, whatever happened in between, when the image is read
    and normalised in the mounted load, the logged [imageUrl] is the one of
    the state at the time of the effect and differs from the new one. *)
Theorem final_log_has_the_captured_image_url `{Platform}
    (es later : list event) (id : option jsstring)
    (r : effect_run) (data raw fb : jsval) (u : objectURL) (blob : Blob) :
  let w0 := run_events initial_world es in
  let i := List.length (runs w0) in
  let w := run_events (step w0 (RunEffect id)) later in
  life w0 <> Unmounted ->
  runs w !! i = Some r ->
  load r = AwaitReadImage data u ->
  mounted r = true ->
  ToBoolean raw = true ->
  normalize raw (js "image/png") = Some blob ->
  Get data (js "feedback") = Normal fb ->
  let w' := step w (Settle i (Normal raw)) in
  console w' = console w ++ [console_log u (imageUrl (view w0)) fb]
  /\ imageUrl (view w') = Some (ObjectURL (next_url (urls w)))
  /\ imageUrl (view w0) <> imageUrl (view w').
Proof.
  intros w0 i w Hlife Hr Hl Hm Hv Hn Hfb w'.
  destruct (image_part_log w i r data raw fb u blob Hr Hl Hm Hv Hn Hfb)
    as (Himg & Hlog). fold w' in Himg, Hlog.
  assert (Hcap : captured_imageUrl r = imageUrl (view w0)).
  { destruct (run_effect_captures w0 id Hlife) as (r0 & Hr0 & E0).
    destruct (run_keeps_run _ later _ _ Hr0) as (r1 & Hr1 & E1).
    fold w i in Hr1. rewrite Hr in Hr1. injection Hr1 as <-. congruence. }
  rewrite Hcap in Hlog. split; [exact Hlog|]. split; [exact Himg|].
  rewrite Himg. intros E.
  assert (Hinv : handles_inv w).
  { unfold w. apply handles_inv_run, handles_inv_step.
    apply (proj1 (reachable_inv es)). }
  apply (next_url_is_fresh w Hinv).
  unfold w. apply run_keeps_created, step_keeps_created.
  destruct (reachable_inv es) as (_ & _ & _ & Hb2 & _). now apply Hb2.
Qed.

(** The view shows resume 1, then goes to resume 2: the log of the second
    load reports the image URL of resume 1, which the clean-up has revoked,
    not the new one. *)
Lemma final_log_has_the_captured_image_url_witness :
  let P := Sample.platform in
  let first :=
    [RunEffect (Some (js "1")); Settle 0 (Normal (JString Sample.record_text));
     Settle 0 (Normal (JArrayBuffer Sample.pdf_bytes));
     Settle 0 (Normal (JString (js "data:image/png;base64,UE5H")))] in
  let second :=
    [RunEffect (Some (js "2")); Settle 1 (Normal (JString Sample.record_text));
     Settle 1 (Normal (JArrayBuffer Sample.pdf_bytes));
     Settle 1 (Normal (JString (js "data:image/png;base64,UE5H")))] in
  let w := run_events initial_world (first ++ second) in
  imageUrl (view w) = Some (ObjectURL 3)
  /\ List.last (console w) (console_warn [] None)
     = console_log (ObjectURL 2) (Some (ObjectURL 1)) (JObject 2).
Proof.
  cbv zeta.
  assert (Hlife : life (@run_events Sample.platform initial_world
                          [RunEffect (Some (js "1"));
                           Settle 0 (Normal (JString Sample.record_text));
                           Settle 0 (Normal (JArrayBuffer Sample.pdf_bytes));
                           Settle 0 (Normal (JString (js "data:image/png;base64,UE5H")))])
                  <> Unmounted) by (vm_compute; discriminate).
  destruct (@final_log_has_the_captured_image_url Sample.platform
              [RunEffect (Some (js "1")); Settle 0 (Normal (JString Sample.record_text));
               Settle 0 (Normal (JArrayBuffer Sample.pdf_bytes));
               Settle 0 (Normal (JString (js "data:image/png;base64,UE5H")))]
              [Settle 1 (Normal (JString Sample.record_text));
               Settle 1 (Normal (JArrayBuffer Sample.pdf_bytes))]
              (Some (js "2"))
              {| mounted := true; captured_imageUrl := Some (ObjectURL 1);
                 load := AwaitReadImage (JObject 1) (ObjectURL 2) |}
              (JObject 1) (JString (js "data:image/png;base64,UE5H")) (JObject 2)
              (ObjectURL 2)
              {| blob_bytes := Sample.png_bytes; blob_type := js "image/png" |}
              Hlife eq_refl eq_refl eq_refl eq_refl eq_refl eq_refl)
    as (Hlog & Himg & _).
  apply (f_equal (fun c => List.last c (console_warn [] None))) in Hlog.
  vm_compute in Hlog, Himg. vm_compute.
  split; [exact Himg | exact Hlog].
Defined.

(** X19. Once the view is unmounted [revokeObjectURL] is never called
    again: every URL a load creates after the unmount stays unrevoked,
    whatever happens later. *)
Theorem urls_created_after_unmount_are_never_revoked `{Platform}
    (es later : list event) (u : objectURL) :
  let w := run_events initial_world es in
  let w' := run_events w later in
  life w = Unmounted ->
  In u (List.map fst (created (urls w'))) ->
  ~ In u (List.map fst (created (urls w))) ->
  ~ In u (revoke_calls (urls w')).
Proof.
  intros w w' Hlife Hin Hnew Hrev.
  destruct (unmounted_never_revokes w later Hlife) as [_ E]. fold w' in E.
  destruct (reachable_inv es) as ((Hsplit & _) & _). fold w in Hsplit.
  apply Hnew. rewrite Hsplit. apply in_or_app. left. now rewrite <- E.
Qed.

Lemma urls_created_after_unmount_are_never_revoked_witness :
  let P := Sample.platform in
  let w := run_events initial_world
             [RunEffect (Some (js "1")); Unmount;
              Settle 0 (Normal (JString Sample.record_text));
              Settle 0 (Normal (JArrayBuffer Sample.pdf_bytes)); Unmount] in
  In (ObjectURL 0) (List.map fst (created (urls w)))
  /\ ~ In (ObjectURL 0) (revoke_calls (urls w)).
Proof.
  cbv zeta.
  pose proof (@urls_created_after_unmount_are_never_revoked Sample.platform
           [RunEffect (Some (js "1")); Unmount]
           [Settle 0 (Normal (JString Sample.record_text));
            Settle 0 (Normal (JArrayBuffer Sample.pdf_bytes)); Unmount]
           (ObjectURL 0)) as Hleak.
  cbv zeta in Hleak. vm_compute in Hleak. vm_compute.
  split; [left; reflexivity|].
  apply Hleak; [reflexivity | left; reflexivity | intros []].
Defined.

(** X20. A text without a marker in which some code unit is neither of the
    base64 alphabet, nor [=], nor ASCII white space (the content of a file
    read as text, say) gives [null], with the warning of line 55. *)
Theorem foreign_text_is_null `{Platform}
    (t : jsstring) (c : code_unit) (m : jsstring) (w : world) :
  indexOf t (js "base64,") = None ->
  In c t ->
  is_ascii_whitespace c = false ->
  c <> 61 ->
  b64_value c = None ->
  makeBlobFromPossible (JString t) m w
  = (Normal None,
     set_console (console w ++ [decode_warning InvalidCharacterError]) w).
Proof.
  intros Hno Hc Hws Heq Hval.
  assert (Ht : t <> []) by (intros ->; destruct Hc).
  assert (Hb : base64_of t = Some t).
  { unfold base64_of. now rewrite includes_indexOf, Hno. }
  assert (Ha : atob t = Throw InvalidCharacterError).
  { destruct (atob t) as [binary|e] eqn:Ea.
    - destruct (atob_Normal_In _ _ _ Ea Hc) as [?|[?|?]]; congruence.
    - revert Ea. unfold atob. destruct (Nat.eqb _ 1); [congruence|].
      destruct (b64_values _); congruence. }
  rewrite string_payload by assumption. unfold try_catch.
  rewrite (decode_string_Throw _ InvalidCharacterError) by (rewrite Hb; exact Ha).
  reflexivity.
Qed.

Lemma foreign_text_is_null_witness :
  let P := Sample.platform in
  fst (makeBlobFromPossible (JString (js "%PDF-1.4")) (js "application/pdf")
         initial_world)
  = Normal None.
Proof.
  cbv zeta.
  assert (Hc : In 37 (js "%PDF-1.4")) by (left; reflexivity).
  assert (Hne : 37 <> 61) by discriminate.
  exact (f_equal fst
           (@foreign_text_is_null Sample.platform (js "%PDF-1.4") 37
              (js "application/pdf") initial_world eq_refl Hc eq_refl Hne eq_refl)).
Defined.
